(** * zt-3-screener: the report publisher and the instrument-key validator

  A shallow embedding of [src/report_host.py] and
  [src/utils/validate_isins.py], and the properties of the two programs
  that their specification states.

  Conventions of the embedding.
  - Python [str] is [string]; comparison of strings is the comparison of
    their characters' codes, as in Python.  File names are sequences of
    8-bit characters (names that do not decode in the file system's
    encoding are not represented).
  - A Python [dict] with string keys is a [gmap string _]; item assignment
    is [<[k:=v]>].
  - A statement that can raise returns a [result]; [try]/[except] is
    [try_except].
  - The file system, the log and the commands that were run are threaded
    through the functions as a [world]; what the operating system, the
    network and the clock answer is read from an [env]. *)

From Stdlib Require Import Ascii String.
From stdpp Require Import gmap strings list fin_maps sorting pretty.

(** ** Python values and statements *)

Module Py.

Inductive exn : Type :=
| IndexError
| KeyError
| TypeError
| AttributeError
| ValueError
| JSONDecodeError
| RequestException
| UnknownTimeZoneError.

Inductive result (A : Type) : Type :=
| Ok (a : A)
| Raise (e : exn).
Arguments Ok {A} a.
Arguments Raise {A} e.

Definition bind {A B} (r : result A) (k : A -> result B) : result B :=
  match r with
  | Ok a => k a
  | Raise e => Raise e
  end.

(** [try: body except Exception as e: handler e] *)
Definition try_except {A} (body : result A) (handler : exn -> result A)
  : result A :=
  match body with
  | Ok a => Ok a
  | Raise e => handler e
  end.

(** [for x in l: s = body s x], leaving the loop when [body] raises. *)
Fixpoint for_each {A S} (body : S -> A -> result S) (l : list A) (s : S)
  : result S :=
  match l with
  | [] => Ok s
  | x :: l' => bind (body s x) (for_each body l')
  end.

(** [l[i]] for a non-negative [i]. *)
Definition subscript {A} (l : list A) (i : nat) : result A :=
  match l !! i with
  | Some x => Ok x
  | None => Raise IndexError
  end.

(** [d[k]] on a dict. *)
Definition getitem {A} (d : gmap string A) (k : string) : result A :=
  match d !! k with
  | Some x => Ok x
  | None => Raise KeyError
  end.

Definition str_exn (e : exn) : string :=
  match e with
  | IndexError => "list index out of range"
  | KeyError => "key"
  | TypeError => "unsupported operand"
  | AttributeError => "object has no attribute"
  | ValueError => "value"
  | JSONDecodeError => "Expecting value"
  | RequestException => "request failed"
  | UnknownTimeZoneError => "unknown time zone"
  end.

(** The double quote and the line feed, which a string literal of this
    file does not hold. *)
Definition dq : string := String "034"%char "".
Definition nl : string := String "010"%char "".

(** [s.split(sep)] for a one-character separator. *)
Fixpoint str_split (sep : ascii) (s : string) : list string :=
  match s with
  | "" => [""]
  | String c s' =>
      if Ascii.eqb c sep then "" :: str_split sep s'
      else match str_split sep s' with
           | [] => [String c ""]
           | w :: ws => String c w :: ws
           end
  end.

(** [s.count(c)] for a one-character [c]. *)
Fixpoint str_count (c : ascii) (s : string) : nat :=
  match s with
  | "" => 0
  | String a s' => (if Ascii.eqb a c then 1 else 0) + str_count c s'
  end.

(** [s.endswith(suffix)] *)
Definition endswith (suffix s : string) : bool :=
  String.eqb
    (substring (String.length s - String.length suffix)
       (String.length suffix) s) suffix
  && (String.length suffix <=? String.length s)%nat.

(** [sorted(keys, reverse=True)] on strings. *)
Definition sorted_reverse (l : list string) : list string :=
  merge_sort (flip String.le) l.

(** [list(d.keys())]; the order of a dict's keys is the order of
    insertion in Python and is not kept here: every use sorts them. *)
Definition keys {A} (d : gmap string A) : list string :=
  (map_to_list d).*1.

Definition is_digit (c : ascii) : bool :=
  let n := nat_of_ascii c in ((48 <=? n) && (n <=? 57))%nat.

Definition digit_val (c : ascii) : nat := nat_of_ascii c - 48.

(** Two decimal digits, zero padded: the [%d], [%I], [%H] and [%M] of
    [strftime]. *)
Definition pad2 (n : nat) : string :=
  if (n <? 10)%nat then "0" +:+ pretty n else pretty n.

(** Four decimal digits: the [%Y] of [strftime] for a year up to 9999
    (the C library of some platforms drops the leading zeros of a year
    below 1000). *)
Definition pad4 (n : nat) : string :=
  if (n <? 10)%nat then "000" +:+ pretty n
  else if (n <? 100)%nat then "00" +:+ pretty n
  else if (n <? 1000)%nat then "0" +:+ pretty n
  else pretty n.

(** [%b] in the C locale. *)
Definition month_abbr (m : nat) : string :=
  match m with
  | 1 => "Jan" | 2 => "Feb" | 3 => "Mar" | 4 => "Apr"
  | 5 => "May" | 6 => "Jun" | 7 => "Jul" | 8 => "Aug"
  | 9 => "Sep" | 10 => "Oct" | 11 => "Nov" | _ => "Dec"
  end.

Record date : Type := { year : nat; month : nat; day : nat }.

Record datetime : Type :=
  { dt_date : date; hour : nat; minute : nat }.

Global Instance date_eq_dec : EqDecision date.
Proof. solve_decision. Defined.

Definition is_leap (y : nat) : bool :=
  (((y mod 4 =? 0) && negb (y mod 100 =? 0)) || (y mod 400 =? 0))%nat.

Definition days_in_month (y m : nat) : nat :=
  match m with
  | 2 => if is_leap y then 29 else 28
  | 4 | 6 | 9 | 11 => 30
  | _ => 31
  end.

(** The regular expressions that [datetime.strptime] builds for the
    directives [%Y], [%m] and [%d]: each function lists, in the order in
    which the matcher tries them, the ways in which the directive matches
    a prefix of the text, with the rest of the text. *)
Definition re_Y (s : string) : list (nat * string) :=
  match s with
  | String a (String b (String c (String d r))) =>
      if is_digit a && is_digit b && is_digit c && is_digit d
      then [(1000 * digit_val a + 100 * digit_val b
             + 10 * digit_val c + digit_val d, r)]
      else []
  | _ => []
  end.

Definition in_range (lo hi c : ascii) : bool :=
  ((nat_of_ascii lo <=? nat_of_ascii c)
   && (nat_of_ascii c <=? nat_of_ascii hi))%nat.

(** A two-character alternative [x][y] with [x] in [a1..b1] and [y] in
    [a2..b2]. *)
Definition alt2 (a1 b1 a2 b2 : ascii) (s : string) : list (nat * string) :=
  match s with
  | String x (String y r) =>
      if in_range a1 b1 x && in_range a2 b2 y
      then [(10 * digit_val x + digit_val y, r)]
      else []
  | _ => []
  end.

Definition alt1 (a b : ascii) (s : string) : list (nat * string) :=
  match s with
  | String x r => if in_range a b x then [(digit_val x, r)] else []
  | _ => []
  end.

(** [1[0-2]|0[1-9]|[1-9]] *)
Definition re_m (s : string) : list (nat * string) :=
  alt2 "1" "1" "0" "2" s ++ alt2 "0" "0" "1" "9" s ++ alt1 "1" "9" s.

(** [3[0-1]|[1-2]\d|0[1-9]|[1-9]| [1-9]] *)
Definition re_d (s : string) : list (nat * string) :=
  alt2 "3" "3" "0" "1" s ++ alt2 "1" "2" "0" "9" s
  ++ alt2 "0" "0" "1" "9" s ++ alt1 "1" "9" s
  ++ match s with
     | String " " r => alt1 "1" "9" r
     | _ => []
     end.

(** [datetime.strptime(s, "%Y%m%d")]: the first match of the three
    directives in a row must use up the text, and the date must exist. *)
Definition strptime_Ymd (s : string) : result date :=
  let matches :=
    '(y, r1) ← re_Y s; '(m, r2) ← re_m r1; '(d, r3) ← re_d r2;
    [(y, m, d, r3)] in
  match matches with
  | (y, m, d, "") :: _ =>
      if ((1 <=? y) && (d <=? days_in_month y m))%nat
      then Ok {| year := y; month := m; day := d |}
      else Raise ValueError
  | _ => Raise ValueError
  end.

(** [d.strftime("%d %b %Y")] *)
Definition strftime_dbY (d : date) : string :=
  pad2 (day d) +:+ " " +:+ month_abbr (month d) +:+ " " +:+ pad4 (year d).

Inductive level : Type := DEBUG | INFO | WARNING | ERROR.

Definition log_record : Type := level * string.

End Py.

(** ** src/report_host.py *)

Module ReportHost.
Import Py.

(** A path is kept as the directory and the name that [os.path.join] put
    together; [os.path.basename] gives the name back. *)
Record path : Type := { path_dir : string; path_name : string }.

Definition os_path_join (d name : string) : path :=
  {| path_dir := d; path_name := name |}.

Definition os_path_basename (p : path) : string := path_name p.

Definition str_path (p : path) : string :=
  path_dir p +:+ "/" +:+ path_name p.

Global Instance path_eq_dec : EqDecision path.
Proof. solve_decision. Defined.

(** A directory lists its files, name and content, in the order in which
    [os.scandir] gives them. *)
Definition directory : Type := list (string * string).

(** What [subprocess.run(..., check=True)] did. *)
Inductive completed : Type :=
| Completed (stdout stderr : string)
| CalledProcessError (e : string).

(** What the program reads from its surroundings. *)
Record env : Type := {
  (** [os.path.dirname(os.path.abspath(__file__))] *)
  PROJECT_ROOT : string;
  (** [config.settings['paths']['report_dir']] *)
  report_dir : string;
  (** the error, if any, with which the operating system refuses to copy
      a file onto another *)
  copy_error : path -> path -> option string;
  (** the outcome of running a command in the project root *)
  subprocess_run : list string -> completed;
  (** [datetime.now().strftime('%Y-%m-%d %H:%M:%S')] *)
  now : string
}.

Record world : Type := {
  files : gmap string directory;
  log : list log_record;
  commands : list (list string)
}.

Definition DOCS_DIR (e : env) : string := PROJECT_ROOT e +:+ "/docs".

Definition logging (l : level) (msg : string) (w : world) : world :=
  {| files := files w; log := log w ++ [(l, msg)]; commands := commands w |}.

Definition set_files (fs : gmap string directory) (w : world) : world :=
  {| files := fs; log := log w; commands := commands w |}.

Definition listdir (fs : gmap string directory) (d : string) : directory :=
  default [] (fs !! d).

(** [*.html]: any name that ends in [.html]; [glob] leaves out the names
    that start with a dot. *)
Definition match_html (name : string) : bool :=
  negb (String.prefix "." name) && endswith ".html" name.

(** [<role>_report_????????.html]: a question mark stands for any one
    character. *)
Definition match_report (role name : string) : bool :=
  let p := role +:+ "_report_" in
  String.prefix p name
  && (String.length name =? String.length p + 8 + 5)%nat
  && String.eqb (substring (String.length p + 8) 5 name) ".html".

(** [glob.glob(os.path.join(d, pattern))] *)
Definition glob (fs : gmap string directory) (d : string)
    (pattern : string -> bool) : list path :=
  os_path_join d <$> List.filter pattern (listdir fs d).*1.

Fixpoint dir_write (name content : string) (d : directory) : directory :=
  match d with
  | [] => [(name, content)]
  | (n, c) :: d' =>
      if String.eqb n name then (n, content) :: d'
      else (n, c) :: dir_write name content d'
  end.

Fixpoint dir_read (name : string) (d : directory) : option string :=
  match d with
  | [] => None
  | (n, c) :: d' => if String.eqb n name then Some c else dir_read name d'
  end.

Definition read_file (fs : gmap string directory) (p : path)
  : option string :=
  dir_read (path_name p) (listdir fs (path_dir p)).

(** [open(p, "w").write(content)] *)
Definition write_file (p : path) (content : string)
    (fs : gmap string directory) : gmap string directory :=
  <[path_dir p := dir_write (path_name p) content (listdir fs (path_dir p))]> fs.

(** [shutil.copyfile(src, dst)]: the error text when it raises. *)
Definition shutil_copyfile (e : env) (src dst : path)
    (fs : gmap string directory) : string + gmap string directory :=
  if decide (src = dst) then
    inl (str_path src +:+ " and " +:+ str_path dst +:+ " are the same file")
  else
    match copy_error e src dst, read_file fs src with
    | Some msg, _ => inl msg
    | None, None => inl ("No such file or directory: " +:+ str_path src)
    | None, Some content => inr (write_file dst content fs)
    end.

Definition run_git_command (e : env) (command_list : list string)
    (w : world) : bool * world :=
  let w := logging INFO ("Running command: " +:+ String.concat " " command_list) w in
  let w := {| files := files w; log := log w;
              commands := commands w ++ [command_list] |} in
  match subprocess_run e command_list with
  | Completed stdout stderr =>
      let w := logging INFO stdout w in
      let w := if String.eqb stderr "" then w else logging WARNING stderr w in
      (true, w)
  | CalledProcessError msg =>
      (false, logging ERROR ("Git command failed: " +:+ msg) w)
  end.

Definition sync_one (e : env) (w : world) (html_file : path) : world :=
  let dest_file := os_path_join (DOCS_DIR e) (os_path_basename html_file) in
  match shutil_copyfile e html_file dest_file (files w) with
  | inr fs =>
      logging INFO
        ("Synced " +:+ str_path html_file +:+ " to " +:+ str_path dest_file)
        (set_files fs w)
  | inl msg =>
      logging ERROR
        ("Error syncing report " +:+ str_path html_file +:+ " to docs: " +:+ msg)
        w
  end.

Definition sync_reports_to_docs (e : env) (w : world) : world :=
  foldl (sync_one e) w (glob (files w) (report_dir e) match_html).

(** [basename.split('_')[2].split('.')[0]] *)
Definition trading_date_of (basename : string) : result string :=
  bind (subscript (str_split "_" basename) 2)
    (fun seg => subscript (str_split "." seg) 0).

(** The body of the loop over the files that [glob] found: the state is
    the dict from trading date to file path, and the world. *)
Definition scan_one (st : gmap string path * world) (filepath : path)
  : result (gmap string path * world) :=
  let basename := os_path_basename filepath in
  try_except
    (bind (trading_date_of basename)
       (fun trading_date => Ok (<[trading_date := filepath]> st.1, st.2)))
    (fun ex =>
       Ok (st.1,
           logging WARNING
             ("Could not parse trading date from filename " +:+ basename
              +:+ ": " +:+ str_exn ex) st.2)).

Definition scan (files_found : list path) (w : world)
  : result (gmap string path * world) :=
  for_each scan_one files_found (∅, w).

(** [sorted(daily.keys(), reverse=True)[:5]] *)
Definition latest (daily : gmap string path) : list string :=
  take 5 (sorted_reverse (keys daily)).

(** The text of a link: the date as [30 Apr 2025], or the token itself
    when it is not a date. *)
Definition link_text (day : string) : string :=
  match try_except
          (bind (strptime_Ymd day) (fun d => Ok (strftime_dbY d)))
          (fun _ => Ok day)
  with
  | Ok t => t
  | Raise _ => day
  end.

Definition link_item (kind : string) (report_file day : string) : string :=
  "<li><a href=" +:+ dq +:+ report_file +:+ dq +:+ ">" +:+ link_text day
  +:+ " " +:+ kind +:+ " Report</a></li>" +:+ nl.

(** The body of the loop over the days of one role. *)
Definition link_one (kind : string) (daily : gmap string path)
    (links_html : string) (day : string) : result string :=
  bind (getitem daily day)
    (fun p => Ok (links_html +:+ link_item kind (os_path_basename p) day)).

Definition links (kind : string) (daily : gmap string path)
    (days : list string) : result string :=
  for_each (link_one kind daily) days "".

Definition landing_html (success_links_html failure_links_html : string)
  : string :=
  String.concat nl [
    "<!DOCTYPE html>";
    "<html lang=" +:+ dq +:+ "en" +:+ dq +:+ ">";
    "<head>";
    "  <meta charset=" +:+ dq +:+ "UTF-8" +:+ dq +:+ ">";
    "  <title>ZT-3 Stock Screener Reports</title>";
    "  <style>";
    "      body { font-family: 'Segoe UI', sans-serif; background-color: #f8f9fa; color: #212529; padding: 20px; }";
    "      .container { max-width: 900px; margin: auto; background: #fff; padding: 30px; border-radius: 8px; box-shadow: 0 2px 10px rgba(0,0,0,0.1); }";
    "      h1, h2 { text-align: center; }";
    "      ul { list-style: none; padding: 0; }";
    "      li { margin: 10px 0; }";
    "      a { color: #007bff; text-decoration: none; }";
    "      a:hover { text-decoration: underline; }";
    "      .section { margin-top: 30px; }";
    "  </style>";
    "</head>";
    "<body>";
    "  <div class=" +:+ dq +:+ "container" +:+ dq +:+ ">";
    "    <h1>ZT-3 Stock Screener Reports</h1>";
    "    <div class=" +:+ dq +:+ "section" +:+ dq +:+ ">";
    "      <h2>Latest 5 Trading Days Success Reports</h2>";
    "      <ul>";
    "        " +:+ (if String.eqb success_links_html ""
                    then "<li>No Success Reports Available</li>"
                    else success_links_html);
    "      </ul>";
    "    </div>";
    "    <div class=" +:+ dq +:+ "section" +:+ dq +:+ ">";
    "      <h2>Latest 5 Trading Days Failure Reports</h2>";
    "      <ul>";
    "        " +:+ (if String.eqb failure_links_html ""
                    then "<li>No Failure Reports Available</li>"
                    else failure_links_html);
    "      </ul>";
    "    </div>";
    "  </div>";
    "</body>";
    "</html>"
  ].

Definition index_filepath (e : env) : path :=
  os_path_join (DOCS_DIR e) "index.html".

(** The body of [update_landing_page] after its first statement, which
    reads [report_dir] from the configuration. *)
Definition landing_page_from (e : env) (report_dir : string) (w : world)
  : result world :=
  (* Process Success Reports *)
  let success_files := glob (files w) report_dir (match_report "success") in
  bind (scan success_files w) (fun '(daily_success, w) =>
  let sorted_success := latest daily_success in
  bind (links "Success" daily_success sorted_success) (fun success_links_html =>
  (* Process Failure Reports *)
  let failure_files := glob (files w) report_dir (match_report "failure") in
  bind (scan failure_files w) (fun '(daily_failure, w) =>
  let sorted_failure := latest daily_failure in
  bind (links "Failure" daily_failure sorted_failure) (fun failure_links_html =>
  let w :=
    set_files
      (write_file (index_filepath e)
         (landing_html success_links_html failure_links_html) (files w)) w in
  Ok (logging INFO ("Landing page updated at: " +:+ str_path (index_filepath e)) w))))).

Definition update_landing_page (e : env) (w : world) : result world :=
  let report_dir := report_dir e in
  landing_page_from e report_dir w.

Definition publish_both_reports (e : env)
    (success_filepath : string) (failure_filepath : option string)
    (w : world) : result world :=
  let w := sync_reports_to_docs e w in
  bind (update_landing_page e w) (fun w =>
  (* After syncing, commit & push updated docs content. *)
  let synced_files := glob (files w) (DOCS_DIR e) match_html in
  let files_to_commit :=
    (fun f => "docs/" +:+ os_path_basename f) <$> synced_files in
  let commit_message := "Update GitHub Pages reports: " +:+ now e in
  let '(added, w) := run_git_command e (["git"; "add"] ++ files_to_commit) w in
  if added then
    let '(committed, w) :=
      run_git_command e ["git"; "commit"; "-m"; commit_message] w in
    if committed then
      let '(pushed, w) := run_git_command e ["git"; "push"] w in
      if pushed then
        Ok (logging INFO
              "Reports published successfully via GitHub Pages in a single commit." w)
      else Ok (logging ERROR "Git push failed for reports." w)
    else Ok (logging ERROR "Git commit failed for reports." w)
  else Ok (logging ERROR "Git add failed for reports." w)).

(** The script run from the command line with [sys.argv]. *)
Definition main (e : env) (argv : list string) (w : world) : result world :=
  if (length argv <? 2)%nat then
    Ok (logging ERROR
          "Usage: python report_host.py path/to/success_report.html [path/to/failure_report.html]"
          w)
  else
    bind (subscript argv 1) (fun success_report =>
    let failure_report := if (3 <=? length argv)%nat then argv !! 2 else None in
    publish_both_reports e success_report failure_report w).

End ReportHost.

(** ** src/utils/validate_isins.py *)

Module ValidateIsins.
Import Py.

Definition EXCHANGE : string := "NSE".
Definition INSTRUMENT_TYPE : string := "EQ".

(** *** What the remote API answers *)

(** The value that [response.json()] returns. *)
#[warnings="-register-all"]
Inductive json : Type :=
| JNull
| JBool (b : bool)
| JNumber (n : Z)
| JString (s : string)
| JArray (l : list json)
| JObject (o : list (string * json)).

Fixpoint assoc (k : string) (o : list (string * json)) : option json :=
  match o with
  | [] => None
  | (k', v) :: o' => if String.eqb k' k then Some v else assoc k o'
  end.

(** [v.get(k, dflt)]: only a dict has the method. *)
Definition json_get (v : json) (k : string) (dflt : json) : result json :=
  match v with
  | JObject o => Ok (default dflt (assoc k o))
  | _ => Raise AttributeError
  end.

(** [v == 'success'] *)
Definition is_success (v : json) : bool :=
  match v with
  | JString s => String.eqb s "success"
  | _ => false
  end.

(** [v[0]] *)
Definition json_first (v : json) : result json :=
  match v with
  | JArray [] => Raise IndexError
  | JArray (x :: _) => Ok x
  | JString "" => Raise IndexError
  | JString (String c _) => Ok (JString (String c ""))
  | JObject _ => Raise KeyError
  | _ => Raise TypeError
  end.

(** The text of a value inside a log line; a nested value is shortened. *)
Definition str_json (v : json) : string :=
  match v with
  | JNull => "None"
  | JBool true => "True"
  | JBool false => "False"
  | JNumber n => pretty n
  | JString s => s
  | JArray _ => "[...]"
  | JObject _ => "{...}"
  end.

Record response : Type := {
  status_code : nat;
  text : string;
  (** what [response.json()] returns or raises *)
  body : result json
}.

(** What [requests.get] does: a response, or an exception. *)
Inductive get_outcome : Type :=
| Response (r : response)
| GetRaises (e : exn).

Inductive event : Type :=
| EvGet (instrument_key : string)
| EvSleep (seconds : nat)
| EvLog (l : level) (msg : string).

(** How one turn of the loop over the attempts ends. *)
Inductive flow : Type :=
| Return (b : bool)
| Continue.

(** The classes that [except (Timeout, RequestException)] catches; the
    [JSONDecodeError] of [response.json()] is one of them. *)
Definition is_request_exception (e : exn) : bool :=
  match e with
  | RequestException | JSONDecodeError => true
  | _ => false
  end.

(** [if attempt == 0: ...; time.sleep(3); continue] and then
    [return False]. *)
Definition retry_once (instrument_key : string) (attempt : nat)
  : list event * flow :=
  if (attempt =? 0)%nat then
    ([EvLog INFO ("Retrying " +:+ instrument_key +:+ " after 3 seconds...");
      EvSleep 3], Continue)
  else ([], Return false).

Definition log_then_retry (l : level) (msg : string)
    (instrument_key : string) (attempt : nat) : list event * flow :=
  let '(evs, f) := retry_once instrument_key attempt in
  (EvLog l msg :: evs, f).

(** The branch of status 400: the reason is read from the body inside a
    [try] whose only handler is [except json.JSONDecodeError]. *)
Definition bad_request_reason (instrument_key : string) (r : response)
  : result (list event) :=
  match
    bind (body r) (fun error_data =>
    bind (json_get error_data "errors" (JArray [JObject []])) (fun errors =>
    bind (json_first errors) (fun first =>
    bind (json_get first "message" (JString (substring 0 100 (text r))))
      (fun error_msg =>
    Ok [EvLog WARNING
          ("Validation failed for " +:+ instrument_key
           +:+ ". HTTP Status: 400 (Bad Request). Reason: "
           +:+ str_json error_msg)]))))
  with
  | Ok evs => Ok evs
  | Raise JSONDecodeError =>
      Ok [EvLog WARNING
            ("Validation failed for " +:+ instrument_key
             +:+ ". HTTP Status: 400 (Bad Request). Response: "
             +:+ substring 0 200 (text r))]
  | Raise ex => Raise ex
  end.

(** The statements of the [try] block after [requests.get] returned. *)
Definition on_response (instrument_key : string) (attempt : nat)
    (r : response) : result (list event * flow) :=
  if (status_code r =? 200)%nat then
    bind (body r) (fun data =>
    bind (json_get data "status" JNull) (fun status =>
    if is_success status then
      Ok ([EvLog DEBUG
             ("Validation success for " +:+ instrument_key
              +:+ " (Status: " +:+ str_json status +:+ ")")],
          Return true)
    else
      bind (json_get data "message" (JString "N/A")) (fun message =>
      Ok (log_then_retry WARNING
            ("Validation failed for " +:+ instrument_key
             +:+ ". API Status: " +:+ str_json status
             +:+ ", Message: " +:+ str_json message)
            instrument_key attempt))))
  else if (status_code r =? 429)%nat then
    Ok (log_then_retry WARNING
          ("Rate limit hit for " +:+ instrument_key +:+ ". HTTP Status: 429.")
          instrument_key attempt)
  else if (status_code r =? 404)%nat then
    Ok ([EvLog WARNING
           ("Validation failed for " +:+ instrument_key
            +:+ ". HTTP Status: 404 (Not Found)")],
        Return false)
  else if (status_code r =? 400)%nat then
    bind (bad_request_reason instrument_key r)
      (fun evs => Ok (evs, Return false))
  else
    Ok (log_then_retry ERROR
          ("Validation HTTP error for " +:+ instrument_key
           +:+ ". Status: " +:+ pretty (status_code r)
           +:+ ", Response: " +:+ substring 0 200 (text r))
          instrument_key attempt).

(** One turn of [for attempt in range(2)]: the request, the [try] block
    and its two handlers. *)
Definition attempt_once (http_get : nat -> get_outcome)
    (instrument_key : string) (attempt : nat) : list event * flow :=
  let tried :=
    match http_get attempt with
    | Response r => on_response instrument_key attempt r
    | GetRaises ex => Raise ex
    end in
  let '(evs, f) :=
    match tried with
    | Ok r => r
    | Raise ex =>
        if is_request_exception ex then
          log_then_retry ERROR
            ("Validation request error for " +:+ instrument_key
             +:+ " on attempt " +:+ pretty (attempt + 1) +:+ ": "
             +:+ str_exn ex)
            instrument_key attempt
        else
          log_then_retry ERROR
            ("Unexpected error during validation for " +:+ instrument_key
             +:+ " on attempt " +:+ pretty (attempt + 1) +:+ ": "
             +:+ str_exn ex)
            instrument_key attempt
    end in
  (EvGet instrument_key :: evs, f).

Fixpoint attempts (http_get : nat -> get_outcome) (instrument_key : string)
    (range : list nat) : list event * bool :=
  match range with
  | [] => ([], false)
  | attempt :: rest =>
      let '(evs, f) := attempt_once http_get instrument_key attempt in
      match f with
      | Return b => (evs, b)
      | Continue =>
          let '(evs', b) := attempts http_get instrument_key rest in
          ((evs ++ evs')%list, b)
      end
  end.

(** [validate_instrument_key(instrument_key, headers)]: its result and
    what it did; [http_get n] is what the request of attempt [n] meets.
    The address of the request is built once, before the loop, from the
    key, the version of the API and the date. *)
Definition validate_instrument_key (http_get : nat -> get_outcome)
    (instrument_key : string) : list event * bool :=
  attempts http_get instrument_key (seq 0 2).

Definition requests_made (evs : list event) : nat :=
  length (List.filter (fun ev => match ev with EvGet _ => true | _ => false end) evs).

Definition sleeps_made (evs : list event) : list nat :=
  omap (fun ev => match ev with EvSleep n => Some n | _ => None end) evs.

(** *** The notification *)

(** An entry of the stock list. *)
Record stock : Type := { symbol : string; isin : string }.

(** An entry of [results['valid']] or [results['invalid']]. *)
Record entry : Type := {
  entry_symbol : string;
  entry_isin : string;
  entry_instrument_key : string
}.

Record embed : Type := {
  title : string;
  description : string;
  color : N;
  fields : list (string * string * bool);
  footer : option string
}.

Record payload : Type := { username : string; embeds : list embed }.

(** What [requests.post] followed by [raise_for_status] does. *)
Inductive post_outcome : Type :=
| Posted
| PostRequestException (e : string) (response_text : option string)
| PostRaises (e : string).

(** A duration in seconds is a floating-point number; the embedding
    keeps what the program reads off it. *)
Record duration : Type := {
  (** [f"{duration_seconds:.2f}"] *)
  two_decimals : string;
  (** [duration_seconds > 60] *)
  over_a_minute : bool;
  (** [int(duration_seconds // 60)] *)
  whole_minutes : nat;
  (** [int(duration_seconds % 60)] *)
  whole_seconds : nat
}.

Record env : Type := {
  (** [get_api_headers()]: [None] without a token *)
  api_headers : option string;
  (** [config.settings['paths']['stock_list_file']] *)
  stock_list_file : string;
  (** [load_stock_list(stock_list_file)] *)
  stock_list : list stock;
  (** [config.settings['paths']['valid_stock_list_file']] *)
  valid_stock_list_file : string;
  (** what the request for the stock at an index meets at an attempt *)
  http_get : nat -> nat -> get_outcome;
  (** the indexes of the stocks in the order in which their futures
      complete *)
  completion : list nat;
  (** the number of futures harvested when the interrupt flag is set *)
  interrupt_at : option nat;
  (** the duration of the validation loop *)
  loop_duration : duration;
  (** [config.get_discord_stocklist_webhook_url()] *)
  stocklist_webhook_url : option string;
  (** [datetime.now(pytz.timezone('Asia/Kolkata'))] *)
  ist_now : result datetime;
  (** [datetime.now(timezone.utc)] *)
  utc_now : datetime;
  (** what the post of the message at an index meets *)
  http_post : nat -> post_outcome;
  (** the error, if any, with which the file cannot be opened for writing *)
  open_error : string -> option string;
  (** the error, if any, with which the file cannot be removed *)
  remove_error : string -> option string
}.

Record world : Type := {
  fs : gmap string string;
  log : list log_record;
  posts : list payload;
  sleeps : list nat
}.

Definition logging (l : level) (msg : string) (w : world) : world :=
  {| fs := fs w; log := log w ++ [(l, msg)]; posts := posts w;
     sleeps := sleeps w |}.

Definition set_fs (f : gmap string string) (w : world) : world :=
  {| fs := f; log := log w; posts := posts w; sleeps := sleeps w |}.

Definition post (p : payload) (w : world) : world :=
  {| fs := fs w; log := log w; posts := posts w ++ [p]; sleeps := sleeps w |}.

Definition time_sleep (n : nat) (w : world) : world :=
  {| fs := fs w; log := log w; posts := posts w; sleeps := sleeps w ++ [n] |}.

(** [%I] and [%p] *)
Definition hour12 (h : nat) : nat :=
  if (h mod 12 =? 0)%nat then 12 else h mod 12.

Definition am_pm (h : nat) : string := if (h <? 12)%nat then "AM" else "PM".

(** [strftime('Today at %I:%M %p')] *)
Definition strftime_today (t : datetime) : string :=
  "Today at " +:+ pad2 (hour12 (hour t)) +:+ ":" +:+ pad2 (minute t)
  +:+ " " +:+ am_pm (hour t).

(** [strftime('%d %b %Y, %I:%M %p')] *)
Definition strftime_full (t : datetime) : string :=
  strftime_dbY (dt_date t) +:+ ", " +:+ pad2 (hour12 (hour t)) +:+ ":"
  +:+ pad2 (minute t) +:+ " " +:+ am_pm (hour t).

(** [strftime('%d %b %Y, %H:%M UTC')] *)
Definition strftime_utc (t : datetime) : string :=
  strftime_dbY (dt_date t) +:+ ", " +:+ pad2 (hour t) +:+ ":"
  +:+ pad2 (minute t) +:+ " UTC".

(** The current time in IST, formatted conditionally: the text, and the
    world with what was logged. *)
Definition now_formatted (e : env) (w : world) : string * world :=
  match
    bind (ist_now e) (fun now_ist =>
    let today_ist_date := dt_date now_ist in
    if decide (dt_date now_ist = today_ist_date)
    then Ok (strftime_today now_ist)
    else Ok (strftime_full now_ist))
  with
  | Ok now_formatted_str => (now_formatted_str, w)
  | Raise ex =>
      (strftime_utc (utc_now e),
       logging ERROR ("Error getting/formatting IST time: " +:+ str_exn ex) w)
  end.

Definition MAX_CHARS_PER_DESC : nat := 3800.
Definition MAX_LINES_PER_DESC : nat := 45.

(** [f"{i+1}. {stock['symbol']} ({stock['isin']})\n"] *)
Definition invalid_line (i : nat) (s : entry) : string :=
  pretty (i + 1) +:+ ". " +:+ entry_symbol s +:+ " (" +:+ entry_isin s
  +:+ ")" +:+ nl.

Definition invalid_embed (total total_parts part_num : nat) (desc : string)
  : embed :=
  {| title :=
       "Invalid Stock List (" +:+ pretty total +:+ " Total)"
       +:+ (if (1 <? total_parts)%nat
            then " - Part " +:+ pretty part_num +:+ "/" +:+ pretty total_parts
            else "");
     description := desc;
     color := 16711680%N;
     fields := [];
     footer := None |}.

(** The loop over [enumerate(invalid_stocks)], from index [i] on: the
    state is the embeds made so far, the description being filled and
    the number of its part. *)
Fixpoint chunk_loop (total total_parts i : nat) (l : list entry)
    (st : list embed * string * nat) : list embed * string * nat :=
  match l with
  | [] => st
  | s :: l' =>
      let '(embeds_to_send, current_desc_invalid, part_num_invalid) := st in
      let line := invalid_line i s in
      chunk_loop total total_parts (S i) l'
        (if ((MAX_CHARS_PER_DESC
              <? String.length current_desc_invalid + String.length line)%nat
             && negb (String.eqb current_desc_invalid ""))
            || (MAX_LINES_PER_DESC <=? str_count "010" current_desc_invalid)%nat
         then
           ((embeds_to_send
             ++ [invalid_embed total total_parts part_num_invalid
                   current_desc_invalid])%list,
            line, S part_num_invalid)
         else
           (embeds_to_send, current_desc_invalid +:+ line, part_num_invalid))
  end.

(** The embeds of the list of invalid stocks, added after
    [embeds_to_send]. *)
Definition add_invalid_list (invalid_stocks : list entry)
    (embeds_to_send : list embed) : list embed :=
  let total := length invalid_stocks in
  let total_parts_invalid :=
    (total + MAX_LINES_PER_DESC - 1) / MAX_LINES_PER_DESC in
  let '(embeds_to_send, current_desc_invalid, part_num_invalid) :=
    chunk_loop total total_parts_invalid 0 invalid_stocks
      (embeds_to_send, "", 1) in
  (* Add the last chunk for invalid stocks *)
  if String.eqb current_desc_invalid "" then embeds_to_send
  else
    (embeds_to_send
     ++ [invalid_embed total total_parts_invalid part_num_invalid
           current_desc_invalid])%list.

Definition summary_embed (valid_stocks invalid_stocks : list entry)
    (total_checked : nat) (footer_text_common : string) : embed :=
  let checked := "Checked " +:+ pretty total_checked +:+ " stocks. " in
  let '(color, summary_desc) :=
    match valid_stocks, invalid_stocks with
    | [], [] =>
        (8421504%N, checked +:+ "No valid or invalid stocks found (unexpected).")
    | _, _ :: _ => (16711680%N, checked +:+ "Found issues.")
    | _, [] => (65280%N, checked +:+ "All entries are valid.")
    end in
  {| title := "Stock List Validation Summary";
     description := summary_desc;
     color := color;
     fields :=
       [("Valid Stocks", pretty (length valid_stocks), true);
        ("Invalid/Error Stocks", pretty (length invalid_stocks), true)];
     footer := Some footer_text_common |}.

(** The embeds that the notification holds: the summary, then the list of
    invalid stocks, if any, split into parts. *)
Definition embeds_of (valid_stocks invalid_stocks : list entry)
    (total_checked : nat) (footer_text_common : string) : list embed :=
  let embeds_to_send :=
    [summary_embed valid_stocks invalid_stocks total_checked
       footer_text_common] in
  match invalid_stocks with
  | [] => embeds_to_send
  | _ :: _ => add_invalid_list invalid_stocks embeds_to_send
  end.

Definition max_embeds_per_message : nat := 10.

(** [embeds_to_send[start_index:end_index]] of the message at index [i]. *)
Definition embed_chunk (embeds_to_send : list embed) (i : nat) : list embed :=
  let start_index := i * max_embeds_per_message in
  take max_embeds_per_message (drop start_index embeds_to_send).

(** The body of the loop over the messages. *)
Definition send_one (e : env) (embeds_to_send : list embed)
    (num_messages : nat) (w : world) (i : nat) : world :=
  match embed_chunk embeds_to_send i with
  | [] => w
  | (_ :: _) as chunk =>
      let of_n :=
        "(Message " +:+ pretty (i + 1) +:+ "/" +:+ pretty num_messages +:+ ")" in
      let w := post {| username := "Stocklist Validator"; embeds := chunk |} w in
      let w :=
        match http_post e i with
        | Posted =>
            logging INFO
              ("Discord embed notification sent successfully " +:+ of_n +:+ ".") w
        | PostRequestException ex response_text =>
            let w :=
              logging ERROR
                ("Error sending Discord embed notification " +:+ of_n
                 +:+ ": " +:+ ex) w in
            match response_text with
            | Some t => logging ERROR ("Discord Response: " +:+ t) w
            | None => w
            end
        | PostRaises ex =>
            logging ERROR
              ("Unexpected error sending Discord embed notification " +:+ of_n
               +:+ ": " +:+ ex) w
        end in
      if (1 <? num_messages)%nat && (i <? num_messages - 1)%nat
      then time_sleep 1 w else w
  end.

Definition send_stocklist_to_discord (e : env)
    (valid_stocks invalid_stocks : list entry) (total_checked : nat)
    (d : duration) (webhook_url : option string) (w : world) : world :=
  match webhook_url with
  | None | Some "" =>
      logging WARNING
        "Discord stocklist webhook URL not configured. Skipping notification." w
  | Some _ =>
      let duration_str :=
        if over_a_minute d
        then pretty (whole_minutes d) +:+ "m " +:+ pretty (whole_seconds d) +:+ "s"
        else two_decimals d +:+ " seconds" in
      let '(now_formatted_str, w) := now_formatted e w in
      let footer_text_common :=
        "Took " +:+ duration_str +:+ nl +:+ now_formatted_str in
      let w :=
        match invalid_stocks with
        | [] => w
        | _ :: _ =>
            logging INFO
              ("Generating embed(s) for " +:+ pretty (length invalid_stocks)
               +:+ " invalid stocks list...") w
        end in
      let embeds_to_send :=
        embeds_of valid_stocks invalid_stocks total_checked footer_text_common in
      match embeds_to_send with
      | [] => logging WARNING "No embeds generated to send." w
      | _ :: _ =>
          let w :=
            logging INFO
              ("Sending " +:+ pretty (length embeds_to_send)
               +:+ " embed(s) to Discord...") w in
          let num_messages :=
            (length embeds_to_send + max_embeds_per_message - 1)
            / max_embeds_per_message in
          foldl (send_one e embeds_to_send num_messages) w (seq 0 num_messages)
      end
  end.

(** *** The validation run *)

Definition instrument_key_of (isin : string) : string :=
  EXCHANGE +:+ "_" +:+ INSTRUMENT_TYPE +:+ "|" +:+ isin.

(** [process_stock(index, stock)], which a worker thread runs.  The log
    lines of the workers interleave with those of the coordinating thread
    in no fixed order and are left out of the world.  The function returns
    for every stock: [validate_instrument_key] catches what its requests
    raise, so [future.result()] never raises in the loop below. *)
Definition process_stock (e : env) (index : nat) (s : stock)
  : nat * stock * bool :=
  let instrument_key := instrument_key_of (isin s) in
  let is_valid :=
    (validate_instrument_key (http_get e index) instrument_key).2 in
  (index, s, is_valid).

(** [results], the two counters and the number of futures harvested. *)
Record tally : Type := {
  valid : list entry;
  invalid : list entry;
  valid_count : nat;
  invalid_count : nat;
  harvested : nat
}.

Definition interrupted (e : env) (t : tally) : bool :=
  match interrupt_at e with
  | Some j => (j <=? harvested t)%nat
  | None => false
  end.

Definition numbered (index : nat) (tag : string) (s : stock) : string :=
  pretty (index + 1) +:+ ". [" +:+ tag +:+ "] " +:+ symbol s +:+ " ("
  +:+ isin s +:+ ")".

(** The body of the loop over [as_completed(futures_to_stock)], past the
    test of the interrupt flag. *)
Definition harvest_one (e : env) (stocks : list stock)
    (st : tally * world) (i : nat) : tally * world :=
  let '(t, w) := st in
  match stocks !! i with
  | None =>
      (* every future belongs to a stock: this case does not occur *)
      ({| valid := valid t; invalid := invalid t;
          valid_count := valid_count t; invalid_count := invalid_count t;
          harvested := S (harvested t) |}, w)
  | Some s =>
      let '(index, s, is_valid) := process_stock e i s in
      let ent :=
        {| entry_symbol := symbol s; entry_isin := isin s;
           entry_instrument_key := instrument_key_of (isin s) |} in
      if is_valid then
        ({| valid := valid t ++ [ent]; invalid := invalid t;
            valid_count := valid_count t + 1;
            invalid_count := invalid_count t;
            harvested := S (harvested t) |},
         logging INFO (numbered index "VALID" s) w)
      else
        ({| valid := valid t; invalid := invalid t ++ [ent];
            valid_count := valid_count t;
            invalid_count := invalid_count t + 1;
            harvested := S (harvested t) |},
         logging WARNING (numbered index "INVALID" s) w)
  end.

Fixpoint harvest (e : env) (stocks : list stock) (futures : list nat)
    (st : tally * world) : tally * world :=
  match futures with
  | [] => st
  | i :: rest =>
      if interrupted e st.1 then
        (st.1,
         logging WARNING "Processing interrupted. Skipping remaining stocks." st.2)
      else harvest e stocks rest (harvest_one e stocks st i)
  end.

(** *** The list of valid stocks, as [csv.DictWriter] writes it *)

Definition cr : ascii := "013"%char.
Definition lf : ascii := "010"%char.
Definition quotechar : ascii := "034"%char.

Definition csv_special (c : ascii) : bool :=
  Ascii.eqb c "," || Ascii.eqb c quotechar || Ascii.eqb c cr || Ascii.eqb c lf.

Fixpoint csv_has_special (s : string) : bool :=
  match s with
  | "" => false
  | String c s' => csv_special c || csv_has_special s'
  end.

Fixpoint csv_double_quotes (s : string) : string :=
  match s with
  | "" => ""
  | String c s' =>
      if Ascii.eqb c quotechar
      then String c (String c (csv_double_quotes s'))
      else String c (csv_double_quotes s')
  end.

Definition csv_field (s : string) : string :=
  if csv_has_special s
  then String quotechar (csv_double_quotes s) +:+ String quotechar ""
  else s.

(** [writer.writerow(row)] for a row of two fields or more. *)
Definition csv_writerow (row : list string) : string :=
  String.concat "," (csv_field <$> row) +:+ String cr (String lf "").

Definition csv_writerows (rows : list (list string)) : string :=
  String.concat "" (csv_writerow <$> rows).

(** Step 5 of [run_validation]: save the valid list to its file. *)
Definition save_valid_list (e : env) (valid_results : list entry)
    (w : world) : world :=
  let file := valid_stock_list_file e in
  match valid_results with
  | _ :: _ =>
      match open_error e file with
      | None =>
          let fieldnames := ["symbol"; "isin"] in
          let content :=
            csv_writerow fieldnames
            +:+ csv_writerows
                  ((fun s => [entry_symbol s; entry_isin s]) <$> valid_results) in
          logging INFO
            ("Saved " +:+ pretty (length valid_results)
             +:+ " valid stocks to '" +:+ file +:+ "'.")
            (set_fs (<[file := content]> (fs w)) w)
      | Some msg =>
          logging ERROR
            ("Failed to save valid stock list to '" +:+ file +:+ "': " +:+ msg) w
      end
  | [] =>
      let w :=
        logging WARNING
          ("No valid stocks found. '" +:+ file
           +:+ "' will not be created/updated.") w in
      if decide (is_Some (fs w !! file)) then
        match remove_error e file with
        | None =>
            logging INFO
              ("Removed existing '" +:+ file
               +:+ "' as no valid stocks were found.")
              (set_fs (delete file (fs w)) w)
        | Some msg =>
            logging WARNING
              ("Could not remove existing '" +:+ file +:+ "': " +:+ msg) w
        end
      else w
  end.

Definition dashes : string := "--------------------------------------------------".

Definition log_summary (e : env) (stocks : list stock) (t : tally)
    (w : world) : world :=
  let w := logging INFO dashes w in
  let w := logging INFO "Validation Summary:" w in
  let w := logging INFO ("Total Stocks Checked: " +:+ pretty (length stocks)) w in
  let w := logging INFO ("Valid Instrument Keys: " +:+ pretty (valid_count t)) w in
  let w := logging INFO ("Invalid/Error Keys: " +:+ pretty (invalid_count t)) w in
  let w :=
    logging INFO
      ("Validation Duration: " +:+ two_decimals (loop_duration e) +:+ " seconds") w in
  let w := logging INFO dashes w in
  match invalid t with
  | [] => w
  | _ :: _ =>
      let w := logging WARNING "Invalid ISINs/Symbols found:" w in
      let w :=
        foldl
          (fun w item =>
             logging WARNING
               ("  - " +:+ entry_symbol item +:+ " (" +:+ entry_isin item +:+ ")") w)
          w (invalid t) in
      logging WARNING "Please check these entries in your stock_list.csv" w
  end.

Definition run_validation (e : env) (w : world) : world :=
  let w := logging INFO "Starting ISIN validation process..." w in
  (* 1. Get API Headers *)
  match api_headers e with
  | None =>
      logging ERROR
        "Cannot run validation. Failed to get API headers (check token)." w
  | Some headers =>
      (* 2. Load Stock List *)
      let stocks := stock_list e in
      match stocks with
      | [] =>
          logging ERROR
            ("Cannot run validation. Failed to load stock list '"
             +:+ stock_list_file e +:+ "' or list is empty.") w
      | _ :: _ =>
          let w :=
            logging INFO
              ("Found " +:+ pretty (length stocks) +:+ " stocks to validate.") w in
          let '(t, w) :=
            harvest e stocks (completion e)
              ({| valid := []; invalid := []; valid_count := 0;
                  invalid_count := 0; harvested := 0 |}, w) in
          let w :=
            if interrupted e t then
              let w :=
                logging WARNING "Validation was interrupted before completion." w in
              logging WARNING
                ("Processed " +:+ pretty (valid_count t + invalid_count t)
                 +:+ " of " +:+ pretty (length stocks)
                 +:+ " stocks before interruption.") w
            else w in
          let w := log_summary e stocks t w in
          (* 5. Save Valid List to File *)
          let w := save_valid_list e (valid t) w in
          (* 6. Send Validation Results to Discord *)
          send_stocklist_to_discord e (valid t) (invalid t) (length stocks)
            (loop_duration e) (stocklist_webhook_url e) w
      end
  end.

End ValidateIsins.

(** ** Vocabulary of the statements *)

Module Vocabulary.
Import Py.

(** The file carries the trading date [d] in its name. *)
Definition has_date (d : string) (p : ReportHost.path) : bool :=
  match ReportHost.trading_date_of (ReportHost.os_path_basename p) with
  | Ok d' => String.eqb d' d
  | Raise _ => false
  end.

(** The list items of one role, for the days and files given. *)
Definition entries_html (kind : string) (entries : list (string * string))
  : string :=
  String.concat ""
    ((fun '(day, report_file) => ReportHost.link_item kind report_file day)
       <$> entries).

(** The days listed for one role with the files that their links open. *)
Definition entries_of (daily : gmap string ReportHost.path)
  : list (string * string) :=
  (fun day =>
     (day, from_option ReportHost.os_path_basename "" (daily !! day)))
    <$> ReportHost.latest daily.







(** The landing page that a run left in the docs folder. *)
Definition index_content (e : ReportHost.env)
    (r : result ReportHost.world) : option string :=
  match r with
  | Ok w => ReportHost.read_file (ReportHost.files w) (ReportHost.index_filepath e)
  | Raise _ => None
  end.

(** The commands of a publication, given which of them succeed. *)
Definition succeeds (e : ReportHost.env) (command : list string) : bool :=
  match ReportHost.subprocess_run e command with
  | ReportHost.Completed _ _ => true
  | ReportHost.CalledProcessError _ => false
  end.

(** The lines of the list of invalid stocks, numbered from [i + 1]. *)
Fixpoint lines_from (i : nat) (l : list ValidateIsins.entry) : list string :=
  match l with
  | [] => []
  | s :: l' => ValidateIsins.invalid_line i s :: lines_from (S i) l'
  end.

(** The text that a group of lines makes. *)
Definition join (g : list string) : string := String.concat "" g.

(** The futures that the loop of [run_validation] harvests: all of them,
    or those completed before the interrupt. *)
Definition harvested_indexes (e : ValidateIsins.env) : list nat :=
  match ValidateIsins.interrupt_at e with
  | Some j => take j (ValidateIsins.completion e)
  | None => ValidateIsins.completion e
  end.

Definition entry_of (s : ValidateIsins.stock) : ValidateIsins.entry :=
  {| ValidateIsins.entry_symbol := ValidateIsins.symbol s;
     ValidateIsins.entry_isin := ValidateIsins.isin s;
     ValidateIsins.entry_instrument_key :=
       ValidateIsins.instrument_key_of (ValidateIsins.isin s) |}.

(** The entries that a run finds valid, in the order of harvest. *)
Definition valid_entries (e : ValidateIsins.env) : list ValidateIsins.entry :=
  omap
    (fun i =>
       match ValidateIsins.stock_list e !! i with
       | Some s =>
           if (ValidateIsins.process_stock e i s).2
           then Some (entry_of s) else None
       | None => None
       end)
    (harvested_indexes e).

(** The webhook is configured. *)
Definition configured (url : option string) : bool :=
  match url with
  | None | Some "" => false
  | Some _ => true
  end.

(** The request met HTTP 200 and a JSON object whose status is
    [success]. *)
Definition api_success (o : ValidateIsins.get_outcome) : bool :=
  match o with
  | ValidateIsins.Response r =>
      (ValidateIsins.status_code r =? 200)%nat
      && match ValidateIsins.body r with
         | Ok (ValidateIsins.JObject m) =>
             ValidateIsins.is_success
               (default ValidateIsins.JNull (ValidateIsins.assoc "status" m))
         | _ => false
         end
  | ValidateIsins.GetRaises _ => false
  end.

(** The body of a response of status 400 lets its reason be read, or is
    not JSON at all. *)
Definition reason_readable (r : ValidateIsins.response) : bool :=
  match
    bind (ValidateIsins.body r)
      (fun error_data =>
         bind (ValidateIsins.json_get error_data "errors"
                 (ValidateIsins.JArray [ValidateIsins.JObject []]))
           (fun errors =>
              bind (ValidateIsins.json_first errors)
                (fun first =>
                   ValidateIsins.json_get first "message" ValidateIsins.JNull)))
  with
  | Ok _ => true
  | Raise JSONDecodeError => true
  | Raise _ => false
  end.

(** The request met an answer after which no second request is made: 404,
    or 400 with a readable reason. *)
Definition final_failure (o : ValidateIsins.get_outcome) : bool :=
  match o with
  | ValidateIsins.Response r =>
      (ValidateIsins.status_code r =? 404)%nat
      || ((ValidateIsins.status_code r =? 400)%nat && reason_readable r)
  | ValidateIsins.GetRaises _ => false
  end.

(** The futures that a loop of harvest goes through. *)
Definition harvested_of (e : ValidateIsins.env) (futures : list nat)
    : list nat :=
  match ValidateIsins.interrupt_at e with
  | Some j => take j futures
  | None => futures
  end.

(** The entry of the stock at an index, when it is found valid and when it
    is not. *)
Definition valid_at (e : ValidateIsins.env) (stocks : list ValidateIsins.stock)
    (i : nat) : option ValidateIsins.entry :=
  match stocks !! i with
  | Some s =>
      if (ValidateIsins.process_stock e i s).2 then Some (entry_of s) else None
  | None => None
  end.

Definition invalid_at (e : ValidateIsins.env)
    (stocks : list ValidateIsins.stock) (i : nat) : option ValidateIsins.entry :=
  match stocks !! i with
  | Some s =>
      if (ValidateIsins.process_stock e i s).2 then None else Some (entry_of s)
  | None => None
  end.

(** The same surroundings with other answers to the posts. *)
Definition with_http_post (hp : nat -> ValidateIsins.post_outcome)
    (e : ValidateIsins.env) : ValidateIsins.env :=
  {| ValidateIsins.api_headers := ValidateIsins.api_headers e;
     ValidateIsins.stock_list_file := ValidateIsins.stock_list_file e;
     ValidateIsins.stock_list := ValidateIsins.stock_list e;
     ValidateIsins.valid_stock_list_file := ValidateIsins.valid_stock_list_file e;
     ValidateIsins.http_get := ValidateIsins.http_get e;
     ValidateIsins.completion := ValidateIsins.completion e;
     ValidateIsins.interrupt_at := ValidateIsins.interrupt_at e;
     ValidateIsins.loop_duration := ValidateIsins.loop_duration e;
     ValidateIsins.stocklist_webhook_url := ValidateIsins.stocklist_webhook_url e;
     ValidateIsins.ist_now := ValidateIsins.ist_now e;
     ValidateIsins.utc_now := ValidateIsins.utc_now e;
     ValidateIsins.http_post := hp;
     ValidateIsins.open_error := ValidateIsins.open_error e;
     ValidateIsins.remove_error := ValidateIsins.remove_error e |}.

(** The message that holds a chunk of embeds; none for an empty chunk. *)
Definition message_of (chunk : list ValidateIsins.embed)
    : option ValidateIsins.payload :=
  match chunk with
  | [] => None
  | _ :: _ =>
      Some {| ValidateIsins.username := "Stocklist Validator";
              ValidateIsins.embeds := chunk |}
  end.

(** The log lines of level WARNING or ERROR among the events. *)
Definition complaints (evs : list ValidateIsins.event)
    : list ValidateIsins.event :=
  List.filter
    (fun ev =>
       match ev with
       | ValidateIsins.EvLog WARNING _ | ValidateIsins.EvLog ERROR _ => true
       | _ => false
       end)
    evs.

(** The tally before the loop of harvest. *)
Definition empty_tally : ValidateIsins.tally :=
  {| ValidateIsins.valid := []; ValidateIsins.invalid := [];
     ValidateIsins.valid_count := 0; ValidateIsins.invalid_count := 0;
     ValidateIsins.harvested := 0 |}.

(** The entries that a run finds invalid, in the order of harvest. *)
Definition invalid_entries (e : ValidateIsins.env)
    : list ValidateIsins.entry :=
  omap (invalid_at e (ValidateIsins.stock_list e)) (harvested_indexes e).

(** A step of the run that only writes the log and the files. *)
Definition quiet (f : ValidateIsins.world -> ValidateIsins.world) : Prop :=
  forall w,
    ValidateIsins.posts (f w) = ValidateIsins.posts w
    /\ ValidateIsins.sleeps (f w) = ValidateIsins.sleeps w
    /\ exists l, ValidateIsins.log (f w) = ValidateIsins.log w ++ l.

(** The file is one that a sync copies: a path among those given whose
    name is [name] and that the operating system lets be copied into the
    docs folder. *)
Definition copies (e : ReportHost.env) (name : string)
    (l : list ReportHost.path) : bool :=
  existsb
    (fun p =>
       String.eqb (ReportHost.path_name p) name
       && bool_decide
            (ReportHost.copy_error e p
               (ReportHost.os_path_join (ReportHost.DOCS_DIR e)
                  (ReportHost.path_name p)) = None))
    l.

(** The names of the files of a folder. *)
Definition names (w : ReportHost.world) (d : string) : list string :=
  (ReportHost.listdir (ReportHost.files w) d).*1.

End Vocabulary.

(** ** Concrete surroundings, for the examples *)

Module Demo.
Import Py.

(** A project in [/srv/zt3] whose copies and commands all succeed. *)
Definition e_demo : ReportHost.env :=
  {| ReportHost.PROJECT_ROOT := "/srv/zt3";
     ReportHost.report_dir := "/srv/zt3/reports";
     ReportHost.copy_error := fun _ _ => None;
     ReportHost.subprocess_run := fun _ => ReportHost.Completed "" "";
     ReportHost.now := "2025-05-01 10:00:00" |}.

(** The same project when [git commit] fails. *)
Definition e_commit_fails : ReportHost.env :=
  {| ReportHost.PROJECT_ROOT := "/srv/zt3";
     ReportHost.report_dir := "/srv/zt3/reports";
     ReportHost.copy_error := fun _ _ => None;
     ReportHost.subprocess_run :=
       fun c =>
         match c !! 1 with
         | Some "commit" => ReportHost.CalledProcessError "exit status 1"
         | _ => ReportHost.Completed "" ""
         end;
     ReportHost.now := "2025-05-01 10:00:00" |}.

(** The same project when the reports folder is configured to be the docs
    folder. *)
Definition e_docs_as_reports : ReportHost.env :=
  {| ReportHost.PROJECT_ROOT := "/srv/zt3";
     ReportHost.report_dir := "/srv/zt3/docs";
     ReportHost.copy_error := fun _ _ => None;
     ReportHost.subprocess_run := fun _ => ReportHost.Completed "" "";
     ReportHost.now := "2025-05-01 10:00:00" |}.

(** The reports folder holds the success report of 30 April; the docs
    folder still holds the one of 1 January, published earlier. *)
Definition w_demo : ReportHost.world :=
  {| ReportHost.files :=
       <["/srv/zt3/reports" := [("success_report_20250430.html", "april")]]>
         (<["/srv/zt3/docs" := [("success_report_20250101.html", "january")]]> ∅);
     ReportHost.log := [];
     ReportHost.commands := [] |}.

(** A reports folder without reports. *)
Definition w_no_reports : ReportHost.world :=
  {| ReportHost.files :=
       <["/srv/zt3/reports" := [("notes.txt", "nothing yet")]]> ∅;
     ReportHost.log := [];
     ReportHost.commands := [] |}.


(** Two success reports of the same day, found one after the other. *)
Definition two_of_a_day : list ReportHost.path :=
  [ReportHost.os_path_join "/srv/zt3/reports" "success_report_20250430.html";
   ReportHost.os_path_join "/srv/zt3/old" "success_report_20250430.html"].


(** A response of status 400 whose body is the JSON object with an empty
    list of errors. *)
Definition bad_request_no_errors : ValidateIsins.response :=
  {| ValidateIsins.status_code := 400;
     ValidateIsins.text :=
       "{" +:+ dq +:+ "status" +:+ dq +:+ ": " +:+ dq +:+ "error" +:+ dq
       +:+ ", " +:+ dq +:+ "errors" +:+ dq +:+ ": []}";
     ValidateIsins.body :=
       Ok (ValidateIsins.JObject
             [("status", ValidateIsins.JString "error");
              ("errors", ValidateIsins.JArray [])]) |}.

Definition not_found : ValidateIsins.response :=
  {| ValidateIsins.status_code := 404;
     ValidateIsins.text := "";
     ValidateIsins.body := Raise JSONDecodeError |}.

Definition success : ValidateIsins.response :=
  {| ValidateIsins.status_code := 200;
     ValidateIsins.text := "";
     ValidateIsins.body :=
       Ok (ValidateIsins.JObject [("status", ValidateIsins.JString "success")]) |}.

(** An entry whose symbol has 3800 characters. *)
Definition long_entry : ValidateIsins.entry :=
  {| ValidateIsins.entry_symbol :=
       String.string_of_list_ascii (replicate 3800 "A"%char);
     ValidateIsins.entry_isin := "INE002A01018";
     ValidateIsins.entry_instrument_key := "NSE_EQ|INE002A01018" |}.

Definition plain_entry (n : nat) : ValidateIsins.entry :=
  {| ValidateIsins.entry_symbol := "SYMBOL" +:+ pretty n;
     ValidateIsins.entry_isin := "INE002A01018";
     ValidateIsins.entry_instrument_key := "NSE_EQ|INE002A01018" |}.

(** An entry whose symbol holds a line feed. *)
Definition two_line_entry : ValidateIsins.entry :=
  {| ValidateIsins.entry_symbol := "SYM" +:+ nl +:+ "BOL";
     ValidateIsins.entry_isin := "INE002A01018";
     ValidateIsins.entry_instrument_key := "NSE_EQ|INE002A01018" |}.

(** A hundred invalid entries, each with a line of some forty characters. *)
Definition hundred : list ValidateIsins.entry := plain_entry <$> seq 0 100.

Definition noon : datetime :=
  {| dt_date := {| year := 2025; month := 5; day := 1 |};
     hour := 13; minute := 5 |}.

(** A run over three stocks: the requests for the first two succeed, the
    third meets a 404; [valid.csv] is left from an earlier run. *)
Definition e_three : ValidateIsins.env :=
  {| ValidateIsins.api_headers := Some "Bearer token";
     ValidateIsins.stock_list_file := "stock_list.csv";
     ValidateIsins.stock_list :=
       [{| ValidateIsins.symbol := "RELIANCE"; ValidateIsins.isin := "INE002A01018" |};
        {| ValidateIsins.symbol := "TCS"; ValidateIsins.isin := "INE467B01029" |};
        {| ValidateIsins.symbol := "GONE"; ValidateIsins.isin := "INE000000000" |}];
     ValidateIsins.valid_stock_list_file := "valid.csv";
     ValidateIsins.http_get :=
       fun i _ =>
         ValidateIsins.Response (if (i <? 2)%nat then success else not_found);
     ValidateIsins.completion := [1; 0; 2];
     ValidateIsins.interrupt_at := None;
     ValidateIsins.loop_duration :=
       {| ValidateIsins.two_decimals := "1.50";
          ValidateIsins.over_a_minute := false;
          ValidateIsins.whole_minutes := 0;
          ValidateIsins.whole_seconds := 1 |};
     ValidateIsins.stocklist_webhook_url := Some "https://discord.example/hook";
     ValidateIsins.ist_now := Ok noon;
     ValidateIsins.utc_now := noon;
     ValidateIsins.http_post := fun _ => ValidateIsins.Posted;
     ValidateIsins.open_error := fun _ => None;
     ValidateIsins.remove_error := fun _ => None |}.

(** The same run when every request meets a 404. *)
Definition e_none_valid : ValidateIsins.env :=
  {| ValidateIsins.api_headers := Some "Bearer token";
     ValidateIsins.stock_list_file := "stock_list.csv";
     ValidateIsins.stock_list := ValidateIsins.stock_list e_three;
     ValidateIsins.valid_stock_list_file := "valid.csv";
     ValidateIsins.http_get := fun _ _ => ValidateIsins.Response not_found;
     ValidateIsins.completion := [2; 1; 0];
     ValidateIsins.interrupt_at := Some 2;
     ValidateIsins.loop_duration := ValidateIsins.loop_duration e_three;
     ValidateIsins.stocklist_webhook_url := None;
     ValidateIsins.ist_now := Ok noon;
     ValidateIsins.utc_now := noon;
     ValidateIsins.http_post := fun _ => ValidateIsins.Posted;
     ValidateIsins.open_error := fun _ => None;
     ValidateIsins.remove_error := fun _ => None |}.

Definition w_stale : ValidateIsins.world :=
  {| ValidateIsins.fs := {["valid.csv" := "symbol,isin"]};
     ValidateIsins.log := [];
     ValidateIsins.posts := [];
     ValidateIsins.sleeps := [] |}.

End Demo.

(** * Strings *)

Module StringFacts.
Import Py Vocabulary.

Lemma append_cons (c : ascii) (s t : string) :
  String c s +:+ t = String c (s +:+ t).
Proof. reflexivity. Qed.

Lemma append_nil_l (s : string) : "" +:+ s = s.
Proof. reflexivity. Qed.

Lemma append_nil_r (s : string) : s +:+ "" = s.
Proof.
  induction s as [|c s IH]; [done |]. by rewrite append_cons, IH.
Qed.

Lemma append_assoc (a b c : string) : (a +:+ b) +:+ c = a +:+ (b +:+ c).
Proof.
  induction a as [|x a IH]; [done |]. by rewrite !append_cons, IH.
Qed.


Lemma split_first (sep : ascii) (a b : string) :
  str_count sep a = 0 ->
  str_split sep (a +:+ String sep b) = a :: str_split sep b.
Proof.
  induction a as [|c a IH]; rewrite ?append_cons, ?append_nil_l; simpl.
  - by rewrite Ascii.eqb_refl.
  - destruct (Ascii.eqb c sep); [done |].
    intros H. by rewrite IH.
Qed.

Lemma count_append (c : ascii) (a b : string) :
  str_count c (a +:+ b) = str_count c a + str_count c b.
Proof.
  induction a as [|x a IH]; [done |].
  rewrite append_cons. simpl. rewrite IH. lia.
Qed.

Lemma length_append (a b : string) :
  String.length (a +:+ b) = String.length a + String.length b.
Proof.
  induction a as [|x a IH]; [done |].
  rewrite append_cons. simpl. by rewrite IH.
Qed.


Lemma concat_cons (x : string) (l : list string) :
  String.concat "" (x :: l) = x +:+ String.concat "" l.
Proof. destruct l; simpl; [by rewrite append_nil_r | done]. Qed.

Lemma prefix_append (p r : string) : String.prefix p (p +:+ r) = true.
Proof.
  induction p as [|c p IH]; [by destruct r |].
  rewrite append_cons. simpl. by destruct (ascii_dec c c).
Qed.

Lemma prefix_inv (p s : string) :
  String.prefix p s = true -> exists r, s = p +:+ r.
Proof.
  revert s. induction p as [|c p IH]; intros s H.
  - by exists s.
  - destruct s as [|x s]; [done |]. simpl in H.
    destruct (ascii_dec c x) as [->|]; [| done].
    destruct (IH s H) as [r ->]. by exists r.
Qed.

Lemma substring_skip (p r : string) (n m : nat) :
  substring (String.length p + n) m (p +:+ r) = substring n m r.
Proof. induction p as [|c p IH]; [done |]. by rewrite append_cons. Qed.

End StringFacts.

(** * Properties of the report publisher *)

Module ReportHostFacts.
Import Py ReportHost Vocabulary StringFacts.

(** *** The date token of a file name *)


Example link_text_of_tokens :
  link_text "20250430" = "30 Apr 2025"
  /\ link_text "20240229" = "29 Feb 2024"
  /\ link_text "20250230" = "20250230"
  /\ link_text "2025-4-3" = "2025-4-3".
Proof. repeat split; by vm_compute. Qed.

Example tokens_of_names :
  trading_date_of "failure_report_20250430.html" = Ok "20250430"
  /\ trading_date_of "success_report_2025_430.html" = Ok "2025"
  /\ trading_date_of "success_report" = Raise IndexError.
Proof. repeat split; by vm_compute. Qed.

(** *** The loop over the files found *)

Lemma scan_one_eq (st : gmap string path * world) (p : path) :
  scan_one st p =
    match trading_date_of (os_path_basename p) with
    | Ok d => Ok (<[d := p]> st.1, st.2)
    | Raise ex =>
        Ok (st.1,
            logging WARNING
              ("Could not parse trading date from filename "
               +:+ os_path_basename p +:+ ": " +:+ str_exn ex) st.2)
    end.
Proof.
  unfold scan_one, try_except, bind.
  by destruct (trading_date_of (os_path_basename p)).
Qed.

Lemma for_each_scan (l : list path) (daily0 : gmap string path) (w : world) :
  exists daily w',
    for_each scan_one l (daily0, w) = Ok (daily, w')
    /\ files w' = files w /\ commands w' = commands w
    /\ forall d,
         daily !! d =
           match last (List.filter (has_date d) l) with
           | Some p => Some p
           | None => daily0 !! d
           end.
Proof.
  revert daily0 w. induction l as [|p l IH]; intros daily0 w.
  - exists daily0, w. by simpl.
  - cbn [for_each]. rewrite scan_one_eq. unfold has_date in *.
    destruct (trading_date_of (os_path_basename p)) as [t|ex] eqn:Ht;
      cbn [bind fst snd].
    + destruct (IH (<[t := p]> daily0) w) as (daily & w' & -> & ? & ? & Hd).
      exists daily, w'. repeat split; [done..|].
      intros d. rewrite Hd. cbn [List.filter]. rewrite Ht.
      destruct (String.eqb_spec t d) as [->|Hne].
      * rewrite last_cons, lookup_insert_eq.
        by destruct (last (List.filter _ l)).
      * by rewrite lookup_insert_ne.
    + destruct (IH daily0 (logging WARNING
                 ("Could not parse trading date from filename "
                  +:+ os_path_basename p +:+ ": " +:+ str_exn ex) w))
        as (daily & w' & -> & ? & ? & Hd).
      exists daily, w'. repeat split; [done..|].
      intros d. rewrite Hd. cbn [List.filter]. by rewrite Ht.
Qed.

(** *** The days of the page *)



Local Instance flip_le_total : Total (flip String.le).
Proof. intros a b. unfold flip. destruct (total String.le a b); auto. Qed.

Local Instance flip_le_trans : Transitive (flip String.le).
Proof. intros a b c Hab Hbc. unfold flip in *. by etrans. Qed.





Lemma latest_keys (daily : gmap string path) (d : string) :
  d ∈ latest daily -> is_Some (daily !! d).
Proof.
  unfold latest, sorted_reverse, keys. intros Hd.
  apply elem_of_take in Hd as (i & Hd & _).
  apply list_elem_of_lookup_2 in Hd.
  rewrite merge_sort_Permutation in Hd.
  apply list_elem_of_fmap in Hd as ([k p] & -> & Hkp).
  apply elem_of_map_to_list in Hkp. by exists p.
Qed.

(** *** The links of one role *)

Lemma for_each_links (kind : string) (daily : gmap string path)
    (days : list string) (acc : string) :
  (forall d, d ∈ days -> is_Some (daily !! d)) ->
  for_each (link_one kind daily) days acc =
    Ok (acc +:+ entries_html kind
          ((fun day => (day, from_option os_path_basename "" (daily !! day)))
             <$> days)).
Proof.
  revert acc. induction days as [|d days IH]; intros acc Hin.
  - unfold entries_html. simpl. by rewrite append_nil_r.
  - cbn [for_each]. unfold link_one at 1, getitem.
    destruct (Hin d) as [p Hp]; [by left |]. rewrite Hp. cbn [bind].
    rewrite IH by (intros; apply Hin; by right).
    unfold entries_html. rewrite !fmap_cons, concat_cons, Hp. simpl.
    by rewrite append_assoc.
Qed.

Lemma links_latest (kind : string) (daily : gmap string path) :
  links kind daily (latest daily) = Ok (entries_html kind (entries_of daily)).
Proof.
  unfold links. rewrite for_each_links by apply latest_keys. done.
Qed.

(** *** The files of the docs folder *)

Lemma dir_read_write (name content : string) (d : directory) :
  dir_read name (dir_write name content d) = Some content.
Proof.
  induction d as [|[n c] d IH]; simpl.
  - by rewrite String.eqb_refl.
  - destruct (String.eqb n name) eqn:Hn; simpl; rewrite Hn; done.
Qed.

Lemma read_write_file (p : path) (content : string)
    (fs : gmap string directory) :
  read_file (write_file p content fs) p = Some content.
Proof.
  unfold read_file, write_file, listdir.
  rewrite lookup_insert_eq. simpl. apply dir_read_write.
Qed.

(** *** The landing page *)

Lemma landing_page_from_eq (e : env) (dir : string) (w : world) :
  exists ds df w',
    landing_page_from e dir w = Ok w'
    /\ (forall d, ds !! d =
          last (List.filter (has_date d)
                  (glob (files w) dir (match_report "success"))))
    /\ (forall d, df !! d =
          last (List.filter (has_date d)
                  (glob (files w) dir (match_report "failure"))))
    /\ files w' =
         write_file (index_filepath e)
           (landing_html (entries_html "Success" (entries_of ds))
              (entries_html "Failure" (entries_of df))) (files w)
    /\ commands w' = commands w.
Proof.
  unfold landing_page_from, scan.
  destruct (for_each_scan (glob (files w) dir (match_report "success")) ∅ w)
    as (ds & w1 & -> & Hf1 & Hc1 & Hds).
  cbn [bind]. rewrite links_latest. cbn [bind]. rewrite Hf1.
  destruct (for_each_scan (glob (files w) dir (match_report "failure")) ∅ w1)
    as (df & w2 & -> & Hf2 & Hc2 & Hdf).
  cbn [bind]. rewrite links_latest. cbn [bind].
  eexists ds, df, _. split; [done |].
  split; [| split; [| split]].
  - intros d. rewrite Hds. by destruct (last _).
  - intros d. rewrite Hdf. by destruct (last _).
  - simpl. by rewrite Hf2, Hf1.
  - simpl. by rewrite Hc2, Hc1.
Qed.

Lemma update_landing_page_content (e : env) (w : world) :
  exists ds df w',
    update_landing_page e w = Ok w'
    /\ (forall d, ds !! d =
          last (List.filter (has_date d)
                  (glob (files w) (report_dir e) (match_report "success"))))
    /\ (forall d, df !! d =
          last (List.filter (has_date d)
                  (glob (files w) (report_dir e) (match_report "failure"))))
    /\ index_content e (Ok w') =
         Some (landing_html (entries_html "Success" (entries_of ds))
                 (entries_html "Failure" (entries_of df)))
    /\ commands w' = commands w.
Proof.
  destruct (landing_page_from_eq e (report_dir e) w)
    as (ds & df & w' & H & Hds & Hdf & Hfiles & Hcmd).
  exists ds, df, w'. repeat split; try done.
  simpl. rewrite Hfiles. apply read_write_file.
Qed.

Lemma sync_commands (e : env) (w : world) :
  commands (sync_reports_to_docs e w) = commands w.
Proof.
  unfold sync_reports_to_docs.
  generalize (glob (files w) (report_dir e) match_html). intros l.
  revert w. induction l as [|p l IH]; intros w; [done |].
  simpl. rewrite IH. unfold sync_one.
  by destruct (shutil_copyfile e p _ (files w)).
Qed.

(** *** The pattern of a report's name *)

Lemma match_report_iff (role name : string) :
  match_report role name = true <->
  exists t, String.length t = 8 /\ name = role +:+ "_report_" +:+ t +:+ ".html".
Proof.
  unfold match_report. split.
  - intros [[Hp Hlen%Nat.eqb_eq]%andb_prop Hs%String.eqb_eq]%andb_prop.
    apply prefix_inv in Hp as [r ->].
    rewrite length_append in Hlen.
    assert (String.length r = 13) as Hr by lia.
    rewrite <- Nat.add_assoc in Hlen.
    rewrite substring_skip in Hs.
    do 13 (destruct r as [|? r]; [simpl in Hr; lia |]).
    destruct r; [| simpl in Hr; lia].
    simpl in Hs. injection Hs as -> -> -> -> ->.
    eexists (String _ (String _ (String _ (String _
              (String _ (String _ (String _ (String _ "")))))))).
    split; [done |]. by rewrite append_assoc.
  - intros (t & Ht & ->).
    rewrite <- append_assoc, prefix_append, substring_skip.
    assert ((String.length ((role +:+ "_report_") +:+ t +:+ ".html")
             =? String.length (role +:+ "_report_") + 8 + 5)%nat = true)
      as -> by (apply Nat.eqb_eq; rewrite !length_append, Ht; simpl; lia).
    do 8 (destruct t as [|? t]; [simpl in Ht; lia |]).
    destruct t; [done | simpl in Ht; lia].
Qed.

(** *** Dates of eight digits compare as numbers *)








(** *** The folder that the landing page is built from *)




(** *** At most five entries per role, latest first *)


(** *** The last file of a date wins *)

(** Claim C4.  For every sequence of files found for a role, the mapping
    from date to file that the page is built from sends every date to the
    last of the files that carry it (and holds no other date). *)
Theorem last_file_of_a_date_wins (files_found : list path) (w : world) :
  exists daily w',
    scan files_found w = Ok (daily, w')
    /\ forall d, daily !! d = last (List.filter (has_date d) files_found).
Proof.
  unfold scan.
  destruct (for_each_scan files_found ∅ w) as (daily & w' & -> & _ & _ & Hd).
  exists daily, w'. split; [done |].
  intros d. rewrite Hd. by destruct (last _).
Qed.

Example second_file_of_a_day_wins :
  match scan Demo.two_of_a_day Demo.w_demo with
  | Ok (daily, _) => daily !! "20250430"
  | Raise _ => None
  end = Some (os_path_join "/srv/zt3/old" "success_report_20250430.html").
Proof. by vm_compute. Qed.

(** *** Add, commit, push *)

(** Claim C7.  [publish_both_reports] runs [git add], then [git commit]
    if the add succeeded, then [git push] if the commit succeeded, and
    runs no other command: a step that failed is the last one, and
    nothing undoes a step that succeeded. *)
Theorem publish_steps_in_order (e : env) (success_filepath : string)
    (failure_filepath : option string) (w : world) :
  exists w' files_to_commit,
    publish_both_reports e success_filepath failure_filepath w = Ok w'
    /\ files_to_commit =
         ((fun f => "docs/" +:+ os_path_basename f)
            <$> glob (files w') (DOCS_DIR e) match_html)
    /\ let add := ["git"; "add"] ++ files_to_commit in
       let commit :=
         ["git"; "commit"; "-m"; "Update GitHub Pages reports: " +:+ now e] in
       let push := ["git"; "push"] in
       commands w' =
         commands w
         ++ add :: (if succeeds e add
                    then commit :: (if succeeds e commit then [push] else [])
                    else []).
Proof.
  unfold publish_both_reports.
  destruct (update_landing_page_content e (sync_reports_to_docs e w))
    as (ds & df & w1 & -> & _ & _ & _ & Hc).
  rewrite sync_commands in Hc. cbn [bind].
  set (files_to_commit :=
         (fun f => "docs/" +:+ os_path_basename f)
           <$> glob (files w1) (DOCS_DIR e) match_html).
  unfold run_git_command, succeeds.
  destruct (subprocess_run e (["git"; "add"] ++ files_to_commit))
    as [out1 err1|msg1] eqn:Hadd.
  - destruct (subprocess_run e
                ["git"; "commit"; "-m";
                 "Update GitHub Pages reports: " +:+ now e])
      as [out2 err2|msg2] eqn:Hcommit.
    + destruct (subprocess_run e ["git"; "push"]) as [out3 err3|msg3].
      * eexists _, files_to_commit. split; [done |]. cbn zeta.
        rewrite ?Hadd, ?Hcommit.
        destruct (String.eqb err1 ""), (String.eqb err2 ""),
          (String.eqb err3 ""); simpl; rewrite Hc, <- !app_assoc; done.
      * eexists _, files_to_commit. split; [done |]. cbn zeta.
        rewrite ?Hadd, ?Hcommit.
        destruct (String.eqb err1 ""), (String.eqb err2 "");
          simpl; rewrite Hc, <- !app_assoc; done.
    + eexists _, files_to_commit. split; [done |]. cbn zeta.
      rewrite ?Hadd, ?Hcommit.
      destruct (String.eqb err1 ""); simpl; rewrite Hc, <- !app_assoc; done.
  - eexists _, files_to_commit. split; [done |]. cbn zeta.
    rewrite ?Hadd. simpl. by rewrite Hc.
Qed.

Example no_push_after_failed_commit :
  match publish_both_reports Demo.e_commit_fails "" None Demo.w_demo with
  | Ok w => commands w
  | Raise _ => []
  end =
  [["git"; "add"; "docs/success_report_20250101.html";
    "docs/success_report_20250430.html"; "docs/index.html"];
   ["git"; "commit"; "-m"; "Update GitHub Pages reports: 2025-05-01 10:00:00"]].
Proof. by vm_compute. Qed.

(** *** The date token, and names without one *)




(** *** The arguments of the command line *)

(** Claim C9.  [publish_both_reports] does not read its two parameters:
    whatever paths it is given, and whether or not the second is [None],
    it leaves the same files, the same landing page, the same log and
    the same commands.  So do two runs of the script whose command lines
    both name a success report. *)
Theorem report_paths_are_not_read (e : env) (w : world)
    (success1 success2 : string) (failure1 failure2 : option string)
    (argv1 argv2 : list string) :
  2 <= length argv1 -> 2 <= length argv2 ->
  publish_both_reports e success1 failure1 w
    = publish_both_reports e success2 failure2 w
  /\ main e argv1 w = main e argv2 w.
Proof.
  intros H1 H2. split; [reflexivity |].
  destruct argv1 as [|a0 [|a1 r1]]; simpl in H1; try lia.
  destruct argv2 as [|b0 [|b1 r2]]; simpl in H2; try lia.
  reflexivity.
Qed.

Lemma report_paths_are_not_read_witness :
  publish_both_reports Demo.e_demo "reports/success_report_20250430.html"
    None Demo.w_demo
    = publish_both_reports Demo.e_demo "elsewhere.html"
        (Some "reports/failure_report_20250430.html") Demo.w_demo
  /\ main Demo.e_demo
       ["report_host.py"; "reports/success_report_20250430.html"] Demo.w_demo
     = main Demo.e_demo
         ["report_host.py"; "elsewhere.html";
          "reports/failure_report_20250430.html"] Demo.w_demo.
Proof.
  apply report_paths_are_not_read; simpl; lia.
Defined.

End ReportHostFacts.

(** * Properties of the validator *)

Module ValidateIsinsFacts.
Import Py ValidateIsins Vocabulary StringFacts.

(** *** The two attempts of [validate_instrument_key] *)

(** Claim C1 at a response that the claim covers and the code treats
    otherwise.  The first request meets status 400 with a body whose list
    of errors is empty: reading its first element raises, the handler of
    status 400 lets the exception through to the handler of unexpected
    errors, and the key is requested a second time after three seconds. *)
Lemma bad_request_is_retried :
  validate_instrument_key
    (fun _ => Response Demo.bad_request_no_errors) "NSE_EQ|INE002A01018"
  = ([EvGet "NSE_EQ|INE002A01018";
      EvLog ERROR
        "Unexpected error during validation for NSE_EQ|INE002A01018 on attempt 1: list index out of range";
      EvLog INFO "Retrying NSE_EQ|INE002A01018 after 3 seconds...";
      EvSleep 3;
      EvGet "NSE_EQ|INE002A01018";
      EvLog ERROR
        "Unexpected error during validation for NSE_EQ|INE002A01018 on attempt 2: list index out of range"],
     false).
Proof. by vm_compute. Qed.

(** What the rest of the claim says holds.  One turn of the loop makes
    one request; it asks for another turn only at the first attempt, and
    then after one sleep of three seconds. *)
Lemma attempt_once_shape (http_get : nat -> get_outcome) (key : string)
    (attempt : nat) :
  exists logs f,
    attempt_once http_get key attempt = (EvGet key :: logs, f)
    /\ requests_made logs = 0
    /\ match f with
       | Continue => attempt = 0 /\ sleeps_made logs = [3]
       | Return _ => sleeps_made logs = []
       end.
Proof.
  unfold attempt_once, on_response, bad_request_reason, log_then_retry,
    retry_once, bind.
  repeat case_match; simplify_eq/=;
    eexists _, _; (split; [reflexivity |]); split; try done;
    split; try done; by apply Nat.eqb_eq.
Qed.

Lemma requests_made_app (a b : list event) :
  requests_made (a ++ b) = requests_made a + requests_made b.
Proof. unfold requests_made. by rewrite List.filter_app, length_app. Qed.

Lemma sleeps_made_app (a b : list event) :
  sleeps_made (a ++ b) = sleeps_made a ++ sleeps_made b.
Proof. unfold sleeps_made. by rewrite omap_app. Qed.

Lemma requests_made_get (key : string) (l : list event) :
  requests_made (EvGet key :: l) = S (requests_made l).
Proof. done. Qed.

Lemma sleeps_made_get (key : string) (l : list event) :
  sleeps_made (EvGet key :: l) = sleeps_made l.
Proof. done. Qed.

(** No key is requested more than twice, and a second request comes
    after one sleep of three seconds. *)
Lemma at_most_one_retry (http_get : nat -> get_outcome) (key : string) :
  let evs := (validate_instrument_key http_get key).1 in
  (requests_made evs = 1 /\ sleeps_made evs = [])
  \/ (requests_made evs = 2 /\ sleeps_made evs = [3]).
Proof.
  unfold validate_instrument_key. cbn [seq attempts].
  destruct (attempt_once_shape http_get key 0) as (l0 & f0 & -> & Hr0 & H0).
  destruct f0 as [b|].
  - left. cbn [fst]. by rewrite requests_made_get, sleeps_made_get, Hr0, H0.
  - destruct H0 as [_ Hs0].
    destruct (attempt_once_shape http_get key 1) as (l1 & f1 & -> & Hr1 & H1).
    right. destruct f1 as [b|]; [| by destruct H1].
    cbn [fst].
    rewrite requests_made_app, sleeps_made_app, !requests_made_get,
      !sleeps_made_get, Hr0, Hr1, Hs0, H1.
    done.
Qed.

(** Status 404 ends the validation at once. *)
Lemma not_found_is_final (http_get : nat -> get_outcome) (key : string)
    (r : response) :
  http_get 0 = Response r -> status_code r = 404 ->
  validate_instrument_key http_get key =
    ([EvGet key;
      EvLog WARNING
        ("Validation failed for " +:+ key +:+ ". HTTP Status: 404 (Not Found)")],
     false).
Proof.
  intros Hget Hs. unfold validate_instrument_key. cbn [seq attempts].
  unfold attempt_once, on_response. by rewrite Hget, Hs.
Qed.

(** Status 400 ends the validation at once when the reason can be read
    off the body, or the body is not JSON; it is followed by a second
    request when reading the reason raises another exception. *)
Lemma bad_request_final_or_retried (http_get : nat -> get_outcome)
    (key : string) (r : response) :
  http_get 0 = Response r -> status_code r = 400 ->
  match bad_request_reason key r with
  | Ok logs => validate_instrument_key http_get key = (EvGet key :: logs, false)
  | Raise _ => requests_made (validate_instrument_key http_get key).1 = 2
  end.
Proof.
  intros Hget Hs. unfold validate_instrument_key. cbn [seq attempts].
  destruct (bad_request_reason key r) as [logs|ex] eqn:Hb.
  - unfold attempt_once, on_response. by rewrite Hget, Hs, Hb.
  - destruct (attempt_once_shape http_get key 1) as (l1 & f1 & -> & Hr1 & H1).
    destruct f1 as [b|]; [| by destruct H1].
    unfold attempt_once, on_response. rewrite Hget, Hs, Hb. cbn [bind Nat.eqb].
    unfold log_then_retry, retry_once.
    destruct (is_request_exception ex); cbn [fst Nat.eqb];
      rewrite requests_made_app, !requests_made_get, Hr1; done.
Qed.

(** *** The time in the footer *)

(** Claim C10.  When the time zone is found, the date of the current
    time is compared with itself, so the time is always written as
    [Today at ...]; the branch of the other format is never taken. *)
Theorem timestamp_is_today (e : env) (w : world) (now_ist : datetime) :
  ist_now e = Ok now_ist ->
  now_formatted e w = (strftime_today now_ist, w)
  /\ String.prefix "Today at " (strftime_today now_ist) = true.
Proof.
  intros Hnow. unfold now_formatted. rewrite Hnow. cbn [bind].
  case_decide; [| done]. split; [done |].
  unfold strftime_today. apply prefix_append.
Qed.

Lemma timestamp_is_today_witness :
  now_formatted Demo.e_three Demo.w_stale = ("Today at 01:05 PM", Demo.w_stale)
  /\ String.prefix "Today at " "Today at 01:05 PM" = true.
Proof.
  apply (timestamp_is_today Demo.e_three Demo.w_stale Demo.noon).
  reflexivity.
Defined.

(** *** The parts of the list of invalid stocks *)

Lemma join_snoc (g : list string) (ln : string) :
  join (g ++ [ln]) = join g +:+ ln.
Proof.
  unfold join. induction g as [|x g IH]; [done |].
  rewrite <- app_comm_cons, !concat_cons, IH. by rewrite append_assoc.
Qed.

Lemma pretty_N_go_count (c : ascii) (x : N) (s : string) :
  is_digit c = false ->
  str_count c (pretty_N_go x s) = str_count c s.
Proof.
  intros Hc. revert s.
  induction (N.lt_wf_0 x) as [x _ IH]; intros s.
  destruct (decide (x = 0)%N) as [->|Hx]; [by rewrite pretty_N_go_0 |].
  rewrite pretty_N_go_step by lia.
  rewrite IH by (apply N.div_lt; lia). simpl.
  destruct (Ascii.eqb_spec (pretty_N_char (x `mod` 10)) c) as [<-|]; [| done].
  unfold pretty_N_char in Hc. by repeat case_match.
Qed.

Lemma pretty_nat_count (c : ascii) (n : nat) :
  is_digit c = false -> str_count c (pretty n) = 0.
Proof.
  intros Hc. unfold pretty, pretty_nat, pretty, pretty_N.
  case_decide; [| by rewrite pretty_N_go_count].
  cbn [str_count]. destruct (Ascii.eqb_spec "0" c) as [<-|]; [| done].
  by vm_compute in Hc.
Qed.

Lemma invalid_line_count (i : nat) (s : entry) :
  str_count lf (invalid_line i s) =
    str_count lf (entry_symbol s) + str_count lf (entry_isin s) + 1.
Proof.
  unfold invalid_line. rewrite !count_append, pretty_nat_count by done.
  simpl. lia.
Qed.

Lemma lines_have_line_feed (i : nat) (l : list entry) :
  Forall (fun ln => 1 <= str_count lf ln) (lines_from i l).
Proof.
  revert i. induction l as [|s l IH]; intros i; constructor; [| done].
  rewrite invalid_line_count. lia.
Qed.

Lemma count_join (g : list string) :
  Forall (fun ln => 1 <= str_count lf ln) g ->
  length g <= str_count lf (join g).
Proof.
  unfold join. induction 1 as [|x g Hx Hg IH]; [done |].
  rewrite concat_cons, count_append. simpl. lia.
Qed.

(** The test that closes the description being filled. *)
Lemma flush_nonempty (cur ln : string) :
  ((MAX_CHARS_PER_DESC <? String.length cur + String.length ln)
   && negb (String.eqb cur "")
   || (MAX_LINES_PER_DESC <=? str_count lf cur)) = true ->
  cur <> "".
Proof.
  intros H ->. rewrite String.eqb_refl in H. cbn [negb] in H.
  rewrite andb_false_r in H. by vm_compute in H.
Qed.

(** The descriptions are groups of consecutive lines, of one line at
    least and 45 lines at most. *)
Lemma chunk_loop_groups (total parts : nat) (l : list entry) (i : nat)
    (embeds0 : list embed) (gcur : list string) (part : nat) :
  length gcur <= 45 ->
  Forall (fun ln => 1 <= str_count lf ln) gcur ->
  exists new groups glast part',
    chunk_loop total parts i l (embeds0, join gcur, part)
      = (embeds0 ++ new, join glast, part')
    /\ description <$> new = join <$> groups
    /\ concat groups ++ glast = gcur ++ lines_from i l
    /\ Forall (fun g => 1 <= length g <= 45) groups
    /\ length glast <= 45
    /\ Forall (fun ln => 1 <= str_count lf ln) glast
    /\ (gcur <> [] \/ l <> [] -> glast <> []).
Proof.
  revert i embeds0 gcur part.
  induction l as [|s l IH]; intros i embeds0 gcur part Hlen Hnl.
  - exists [], [], gcur, part. simpl. rewrite !app_nil_r.
    repeat split; auto. by intros [|].
  - cbn [chunk_loop lines_from]. change "010"%char with lf.
    pose proof (lines_have_line_feed i [s]) as Hs.
    apply Forall_cons in Hs as [Hs _].
    destruct ((MAX_CHARS_PER_DESC
               <? String.length (join gcur)
                  + String.length (invalid_line i s))
              && negb (String.eqb (join gcur) "")
              || (MAX_LINES_PER_DESC <=? str_count lf (join gcur))) eqn:Hc.
    + apply flush_nonempty in Hc.
      assert (gcur <> []) as Hne by (by intros ->).
      destruct (IH (S i)
                  (embeds0 ++ [invalid_embed total parts part (join gcur)])
                  [invalid_line i s] (S part))
        as (new & groups & glast & part' & Heq & Hd & Hcat & Hg & Hl & Hn & Hlast);
        [simpl; lia | by constructor |].
      change (join [invalid_line i s]) with (invalid_line i s) in Heq.
      exists (invalid_embed total parts part (join gcur) :: new),
        (gcur :: groups), glast, part'.
      rewrite Heq, <- app_assoc. split; [done |].
      split; [by rewrite !fmap_cons, Hd |].
      split; [by simpl; rewrite <- app_assoc, Hcat |].
      split.
      { constructor; [| done]. split; [| done].
        destruct gcur; [done | simpl; lia]. }
      split; [done |]. split; [done |]. intros _. apply Hlast. by left.
    + apply orb_false_elim in Hc as [_ Hc].
      apply Nat.leb_gt in Hc. unfold MAX_LINES_PER_DESC in Hc.
      pose proof (count_join gcur Hnl) as Hcount.
      destruct (IH (S i) embeds0 (gcur ++ [invalid_line i s]) part)
        as (new & groups & glast & part' & Heq & Hd & Hcat & Hg & Hl & Hn & Hlast).
      { rewrite length_app. simpl. lia. }
      { apply Forall_app. split; [done | by constructor]. }
      rewrite join_snoc in Heq.
      exists new, groups, glast, part'.
      rewrite Heq. split; [done |]. split; [done |].
      split; [by rewrite Hcat, <- app_assoc |].
      split; [done |]. split; [done |]. split; [done |].
      intros _. apply Hlast. left. by destruct gcur.
Qed.

(** A bound [P] that every line meets ([Q] says how) and that adding a
    line to an open description keeps, is met by every description. *)
Lemma chunk_loop_budget (P Q : string -> Prop) (total parts : nat)
    (l : list entry) (i : nat) (embeds0 : list embed) (cur : string)
    (part : nat) :
  (forall ln, Q ln -> P ln) ->
  (forall cur ln, P cur -> Q ln ->
     ((MAX_CHARS_PER_DESC <? String.length cur + String.length ln)
      && negb (String.eqb cur "")
      || (MAX_LINES_PER_DESC <=? str_count lf cur)) = false ->
     P (cur +:+ ln)) ->
  P cur -> Forall Q (lines_from i l) ->
  exists new cur' part',
    chunk_loop total parts i l (embeds0, cur, part)
      = (embeds0 ++ new, cur', part')
    /\ Forall (fun em => P (description em)) new /\ P cur'.
Proof.
  intros HQP Hadd. revert i embeds0 cur part.
  induction l as [|s l IH]; intros i embeds0 cur part Hcur Hl.
  - exists [], cur, part. simpl. by rewrite app_nil_r.
  - cbn [chunk_loop lines_from] in *. change "010"%char with lf.
    apply Forall_cons in Hl as [Hs Hl].
    destruct ((MAX_CHARS_PER_DESC
               <? String.length cur + String.length (invalid_line i s))
              && negb (String.eqb cur "")
              || (MAX_LINES_PER_DESC <=? str_count lf cur)) eqn:Hc.
    + destruct (IH (S i) (embeds0 ++ [invalid_embed total parts part cur])
                  (invalid_line i s) (S part))
        as (new & cur' & part' & -> & Hnew & Hcur'); [by apply HQP | done |].
      exists (invalid_embed total parts part cur :: new), cur', part'.
      rewrite <- app_assoc. split; [done |]. split; [| done].
      by constructor.
    + destruct (IH (S i) embeds0 (cur +:+ invalid_line i s) part)
        as (new & cur' & part' & -> & Hnew & Hcur'); [by apply Hadd | done |].
      by exists new, cur', part'.
Qed.

Lemma chars_budget_kept (cur ln : string) :
  String.length cur <= 3800 -> String.length ln <= 3800 ->
  ((MAX_CHARS_PER_DESC <? String.length cur + String.length ln)
   && negb (String.eqb cur "")
   || (MAX_LINES_PER_DESC <=? str_count lf cur)) = false ->
  String.length (cur +:+ ln) <= 3800.
Proof.
  intros Hcur Hln [[H|H]%andb_false_iff _]%orb_false_elim.
  - apply Nat.ltb_ge in H. unfold MAX_CHARS_PER_DESC in H.
    rewrite length_append. lia.
  - apply negb_false_iff, String.eqb_eq in H as ->. done.
Qed.

Lemma lines_budget_kept (cur ln : string) :
  str_count lf cur <= 45 -> str_count lf ln = 1 ->
  ((MAX_CHARS_PER_DESC <? String.length cur + String.length ln)
   && negb (String.eqb cur "")
   || (MAX_LINES_PER_DESC <=? str_count lf cur)) = false ->
  str_count lf (cur +:+ ln) <= 45.
Proof.
  intros Hcur Hln [_ H]%orb_false_elim.
  apply Nat.leb_gt in H. unfold MAX_LINES_PER_DESC in H.
  rewrite count_append. lia.
Qed.

Lemma join_nonempty (g : list string) :
  Forall (fun ln => 1 <= str_count lf ln) g -> g <> [] -> join g <> "".
Proof.
  intros Hg Hne Hj. apply count_join in Hg. rewrite Hj in Hg.
  destruct g; [done | simpl in Hg; lia].
Qed.

Lemma one_line_feed_each (i : nat) (l : list entry) :
  Forall (fun s => str_count lf (entry_symbol s) = 0
                   /\ str_count lf (entry_isin s) = 0) l ->
  Forall (fun ln => str_count lf ln = 1) (lines_from i l).
Proof.
  intros H. revert i. induction H as [|s l [H1 H2] Hl IH]; intros i;
    constructor; [| done].
  rewrite invalid_line_count. lia.
Qed.

(** The embeds of the notification: the summary, then the parts of the
    list of invalid stocks. *)
Lemma embeds_of_parts (valid_stocks invalid_stocks : list entry)
    (total_checked : nat) (footer_text : string) :
  exists parts groups,
    embeds_of valid_stocks invalid_stocks total_checked footer_text
      = summary_embed valid_stocks invalid_stocks total_checked footer_text
        :: parts
    /\ description <$> parts = join <$> groups
    /\ concat groups = lines_from 0 invalid_stocks
    /\ Forall (fun g => 1 <= length g <= 45) groups
    /\ (Forall (fun ln => String.length ln <= 3800)
          (lines_from 0 invalid_stocks) ->
        Forall (fun em => String.length (description em) <= 3800) parts)
    /\ (Forall (fun s => str_count lf (entry_symbol s) = 0
                         /\ str_count lf (entry_isin s) = 0) invalid_stocks ->
        Forall (fun em => str_count lf (description em) <= 45) parts).
Proof.
  unfold embeds_of.
  destruct invalid_stocks as [|s0 l0].
  { exists [], []. repeat split; by constructor. }
  cbv beta iota.
  assert (s0 :: l0 <> []) as Hinv by done.
  revert Hinv. generalize (s0 :: l0). clear s0 l0.
  intros invalid_stocks Hinv.
  set (summary :=
         summary_embed valid_stocks invalid_stocks total_checked footer_text).
  intros. unfold add_invalid_list.
  set (total := length invalid_stocks).
  set (nparts := (total + MAX_LINES_PER_DESC - 1) / MAX_LINES_PER_DESC).
  destruct (chunk_loop_groups total nparts invalid_stocks 0 [summary] [] 1)
    as (new & groups & glast & part' & Heq & Hd & Hcat & Hg & Hl & Hn & Hlast);
    [simpl; lia | done |].
  change (join []) with "" in Heq. rewrite Heq.
  assert (glast <> []) as Hne by (apply Hlast; by right).
  pose proof (join_nonempty glast Hn Hne) as Hj.
  apply String.eqb_neq in Hj. rewrite Hj.
  exists (new ++ [invalid_embed total nparts part' (join glast)]),
    (groups ++ [glast]).
  split; [by rewrite <- app_assoc |].
  split; [by rewrite !fmap_app, Hd |].
  split; [by rewrite concat_app; simpl; rewrite app_nil_r |].
  split; [apply Forall_app; split; [done |]; constructor; [| done];
          split; [destruct glast; [done | simpl; lia] | done] |].
  split.
  - intros Hlines.
    destruct (chunk_loop_budget (fun s => String.length s <= 3800)
                (fun s => String.length s <= 3800) total nparts
                invalid_stocks 0 [summary] "" 1)
      as (new2 & cur2 & part2 & Heq2 & Hnew2 & Hcur2);
      [done | apply chars_budget_kept | simpl; lia | done |].
    rewrite Heq in Heq2. injection Heq2 as -> <- <-.
    apply Forall_app. split; [done |]. by constructor.
  - intros Hplain.
    destruct (chunk_loop_budget (fun s => str_count lf s <= 45)
                (fun s => str_count lf s = 1) total nparts
                invalid_stocks 0 [summary] "" 1)
      as (new2 & cur2 & part2 & Heq2 & Hnew2 & Hcur2);
      [intros ln ->; lia | apply lines_budget_kept | simpl; lia
      | by apply one_line_feed_each |].
    rewrite Heq in Heq2. injection Heq2 as -> <- <-.
    apply Forall_app. split; [done |]. by constructor.
Qed.

(** *** The messages *)

Lemma send_one_posts (e : env) (E : list embed) (n : nat) (w : world)
    (i : nat) :
  posts (send_one e E n w i) =
    posts w
    ++ match embed_chunk E i with
       | [] => []
       | c => [{| username := "Stocklist Validator"; embeds := c |}]
       end.
Proof.
  unfold send_one. destruct (embed_chunk E i) as [|em c].
  - by rewrite app_nil_r.
  - destruct (http_post e i) as [|ex [t|]|ex];
      by destruct ((1 <? n) && (i <? n - 1)).
Qed.

Lemma send_loop_posts (e : env) (E : list embed) (n k a : nat) (w : world) :
  exists sent,
    posts (foldl (send_one e E n) w (seq a k)) = posts w ++ sent
    /\ concat (embeds <$> sent) = take (k * 10) (drop (a * 10) E)
    /\ Forall (fun p => 1 <= length (embeds p) <= 10) sent.
Proof.
  revert a w. induction k as [|k IH]; intros a w.
  - exists []. simpl. by rewrite app_nil_r.
  - cbn [seq foldl].
    destruct (IH (S a) (send_one e E n w a)) as (sent & -> & Hcat & Hlen).
    rewrite send_one_posts. unfold embed_chunk, max_embeds_per_message.
    replace (S a * 10) with (a * 10 + 10) in Hcat by lia.
    rewrite <- drop_drop in Hcat.
    replace (S k * 10) with (10 + k * 10) by lia.
    rewrite <- take_take_drop.
    destruct (take 10 (drop (a * 10) E)) as [|em c] eqn:Hchunk.
    + exists sent. rewrite app_nil_r. by split.
    + exists ({| username := "Stocklist Validator"; embeds := em :: c |}
              :: sent).
      rewrite <- app_assoc. split; [done |].
      split; [by rewrite fmap_cons; simpl; rewrite Hcat |].
      constructor; [| done]. cbn [embeds]. rewrite <- Hchunk, length_take.
      split; [| lia].
      apply (f_equal length) in Hchunk. rewrite length_take in Hchunk.
      cbn [length] in Hchunk. lia.
Qed.

Lemma now_formatted_posts (e : env) (w : world) :
  posts (now_formatted e w).2 = posts w.
Proof.
  unfold now_formatted. destruct (ist_now e) as [t|ex]; cbn [bind]; [| done].
  by case_decide.
Qed.

(** Every message holds ten embeds at most, and the messages of a
    notification hold its embeds in order. *)
Lemma send_posts (e : env) (valid_stocks invalid_stocks : list entry)
    (total_checked : nat) (d : duration) (url : option string) (w : world) :
  exists footer_text sent,
    posts (send_stocklist_to_discord e valid_stocks invalid_stocks
             total_checked d url w) = posts w ++ sent
    /\ Forall (fun p => 1 <= length (embeds p) <= 10) sent
    /\ (configured url = true ->
        concat (embeds <$> sent) =
          embeds_of valid_stocks invalid_stocks total_checked footer_text).
Proof.
  unfold send_stocklist_to_discord.
  destruct url as [[|c u]|];
    [exists "", []; simpl; by rewrite app_nil_r | |
     exists "", []; simpl; by rewrite app_nil_r].
  pose proof (now_formatted_posts e w) as Hposts.
  destruct (now_formatted e w) as [stamp w1]. cbn [snd] in Hposts.
  set (footer_text :=
         "Took "
         +:+ (if over_a_minute d
              then pretty (whole_minutes d) +:+ "m "
                   +:+ pretty (whole_seconds d) +:+ "s"
              else two_decimals d +:+ " seconds") +:+ nl +:+ stamp).
  destruct (embeds_of_parts valid_stocks invalid_stocks total_checked
              footer_text) as (parts & groups & HE & _).
  rewrite HE. rewrite <- HE.
  set (E := embeds_of valid_stocks invalid_stocks total_checked footer_text).
  set (n := (length E + max_embeds_per_message - 1) / max_embeds_per_message).
  match goal with
  | |- context [foldl (send_one e E n) ?w0 (seq 0 n)] =>
      destruct (send_loop_posts e E n n 0 w0) as (sent & Hsent & Hcat & Hlen);
      assert (posts w0 = posts w) as Hw0
        by (by destruct invalid_stocks; simpl; rewrite Hposts)
  end.
  exists footer_text, sent. rewrite Hsent, Hw0.
  split; [done |]. split; [done |]. intros _.
  rewrite Hcat. simpl. apply take_ge.
  subst n E. unfold max_embeds_per_message.
  generalize (length
                (embeds_of valid_stocks invalid_stocks total_checked
                   footer_text)).
  intros m.
  pose proof (Nat.div_mod_eq (m + 10 - 1) 10).
  pose proof (Nat.mod_upper_bound (m + 10 - 1) 10). lia.
Qed.

(** *** Claim C5 *)

(** Claim C5, as stated, fails.  One invalid entry whose symbol has 3800
    characters gives a description of 3819 characters: a line that alone
    exceeds the budget is not split.  And an entry whose symbol holds a
    line feed, after 44 entries, gives a description of 46 lines of
    text. *)
Lemma long_line_exceeds_budget :
  (String.length <$> (description <$> add_invalid_list [Demo.long_entry] []))
    = [3819]
  /\ (str_count lf
        <$> (description
               <$> add_invalid_list
                     ((Demo.plain_entry <$> seq 0 44) ++ [Demo.two_line_entry])
                     []))
     = [46].
Proof. split; by vm_compute. Qed.

(** Claim C5, amended.  For every list of invalid entries, the
    descriptions of the invalid-list embeds are the lines of the list, in
    order, in groups of one line at least and 45 lines at most.  Every
    description has at most 3800 characters when no single line has more,
    and at most 45 line feeds when no symbol or ISIN holds one.  The
    embeds are sent, in order, in messages of ten embeds at most. *)
Theorem invalid_list_within_budgets (e : env)
    (valid_stocks invalid_stocks : list entry) (total_checked : nat)
    (d : duration) (url : option string) (w : world) :
  exists footer_text parts groups sent,
    embeds_of valid_stocks invalid_stocks total_checked footer_text
      = summary_embed valid_stocks invalid_stocks total_checked footer_text
        :: parts
    /\ description <$> parts = join <$> groups
    /\ concat groups = lines_from 0 invalid_stocks
    /\ Forall (fun g => 1 <= length g <= 45) groups
    /\ (Forall (fun ln => String.length ln <= 3800)
          (lines_from 0 invalid_stocks) ->
        Forall (fun em => String.length (description em) <= 3800) parts)
    /\ (Forall (fun s => str_count lf (entry_symbol s) = 0
                         /\ str_count lf (entry_isin s) = 0) invalid_stocks ->
        Forall (fun em => str_count lf (description em) <= 45) parts)
    /\ posts (send_stocklist_to_discord e valid_stocks invalid_stocks
                total_checked d url w) = posts w ++ sent
    /\ Forall (fun p => 1 <= length (embeds p) <= 10) sent
    /\ (configured url = true ->
        concat (embeds <$> sent) =
          embeds_of valid_stocks invalid_stocks total_checked footer_text).
Proof.
  destruct (send_posts e valid_stocks invalid_stocks total_checked d url w)
    as (footer_text & sent & Hsent & Hlen & Hall).
  destruct (embeds_of_parts valid_stocks invalid_stocks total_checked
              footer_text)
    as (parts & groups & HE & Hd & Hcat & Hg & Hc & Hl).
  exists footer_text, parts, groups, sent.
  repeat split; try done; by destruct Hg.
Qed.

Lemma invalid_list_within_budgets_witness :
  exists parts sent,
    Forall (fun em => String.length (description em) <= 3800) parts
    /\ Forall (fun em => str_count lf (description em) <= 45) parts
    /\ posts (send_stocklist_to_discord Demo.e_three [] Demo.hundred 100
                (loop_duration Demo.e_three)
                (stocklist_webhook_url Demo.e_three) Demo.w_stale)
       = posts Demo.w_stale ++ sent
    /\ Forall (fun p => 1 <= length (embeds p) <= 10) sent
    /\ description <$> concat (embeds <$> sent)
       = description
           <$> (summary_embed [] Demo.hundred 100 "" :: parts).
Proof.
  destruct (invalid_list_within_budgets Demo.e_three [] Demo.hundred 100
              (loop_duration Demo.e_three)
              (stocklist_webhook_url Demo.e_three) Demo.w_stale)
    as (footer_text & parts & groups & sent
        & HE & _ & _ & _ & Hchars & Hlines & Hposts & Hten & Hall).
  exists parts, sent.
  split; [apply Hchars, (bool_decide_unpack _); vm_compute; exact I |].
  split; [apply Hlines, (bool_decide_unpack _); vm_compute; exact I |].
  split; [exact Hposts |]. split; [exact Hten |].
  rewrite Hall, HE by reflexivity. reflexivity.
Defined.

Example five_hundred_invalid_entries :
  (fun p => length (embeds p))
    <$> posts (send_stocklist_to_discord Demo.e_three []
                 (Demo.plain_entry <$> seq 0 500) 500
                 (loop_duration Demo.e_three)
                 (stocklist_webhook_url Demo.e_three) Demo.w_stale)
  = [10; 3].
Proof. by vm_compute. Qed.

(** *** The list of valid stocks *)

Lemma now_formatted_fs (e : env) (w : world) :
  fs (now_formatted e w).2 = fs w.
Proof.
  unfold now_formatted. destruct (ist_now e) as [t|ex]; cbn [bind]; [| done].
  by case_decide.
Qed.

Lemma send_one_fs (e : env) (E : list embed) (n : nat) (w : world) (i : nat) :
  fs (send_one e E n w i) = fs w.
Proof.
  unfold send_one. destruct (embed_chunk E i) as [|em c]; [done |].
  destruct (http_post e i) as [|ex [t|]|ex];
    by destruct ((1 <? n) && (i <? n - 1)).
Qed.

Lemma send_loop_fs (e : env) (E : list embed) (n : nat) (l : list nat)
    (w : world) :
  fs (foldl (send_one e E n) w l) = fs w.
Proof.
  revert w. induction l as [|i l IH]; intros w; [done |].
  simpl. by rewrite IH, send_one_fs.
Qed.

Lemma send_fs (e : env) (valid_stocks invalid_stocks : list entry)
    (total_checked : nat) (d : duration) (url : option string) (w : world) :
  fs (send_stocklist_to_discord e valid_stocks invalid_stocks total_checked
        d url w) = fs w.
Proof.
  unfold send_stocklist_to_discord.
  destruct url as [[|c u]|]; [done | | done].
  pose proof (now_formatted_fs e w) as Hfs.
  destruct (now_formatted e w) as [stamp w1]. cbn [snd] in Hfs.
  destruct (embeds_of _ _ _ _); [by destruct invalid_stocks |].
  rewrite send_loop_fs. by destruct invalid_stocks.
Qed.






End ValidateIsinsFacts.

(** * Further properties of the report publisher *)

Module PublisherFacts.
Import Py ReportHost Vocabulary StringFacts ReportHostFacts.

(** *** Files of a folder *)

Lemma dir_read_write_ne (n m content : string) (d : directory) :
  n <> m -> dir_read n (dir_write m content d) = dir_read n d.
Proof.
  intros Hne. induction d as [|[k c] d IH]; simpl.
  - destruct (String.eqb_spec m n); [congruence | done].
  - destruct (String.eqb_spec k m) as [->|Hkm]; simpl.
    + destruct (String.eqb_spec m n); [congruence | done].
    + by rewrite IH.
Qed.

Lemma dir_read_is_Some (n : string) (d : directory) :
  is_Some (dir_read n d) <-> n ∈ d.*1.
Proof.
  induction d as [|[k c] d IH]; simpl.
  - split; [by intros [? ?] | by intros ?%elem_of_nil].
  - destruct (String.eqb_spec k n) as [->|Hkn].
    + split; [intros _; by left | by eexists].
    + rewrite IH. split; [by right |].
      intros [?|?]%elem_of_cons; [congruence | done].
Qed.

Lemma read_write_file_ne (p q : path) (content : string)
    (fs : gmap string directory) :
  p <> q -> read_file (write_file p content fs) q = read_file fs q.
Proof.
  intros Hne. unfold read_file, write_file, listdir.
  destruct (decide (path_dir p = path_dir q)) as [Hd|Hd].
  - rewrite Hd, lookup_insert_eq. simpl. apply dir_read_write_ne.
    intros Hn. apply Hne. destruct p, q. simpl in *. congruence.
  - by rewrite lookup_insert_ne.
Qed.

Lemma write_file_other_dir (p : path) (content : string)
    (fs : gmap string directory) (d : string) :
  d <> path_dir p -> write_file p content fs !! d = fs !! d.
Proof. intros Hd. unfold write_file. by rewrite lookup_insert_ne. Qed.

(** *** The sync of the reports folder into the docs folder *)

(** The loop of [sync_reports_to_docs] over files of a folder [src] other
    than the docs folder: it writes into the docs folder only, and a file
    of the docs folder ends up as the copy of the report of its name, if
    that report is among the files and can be copied. *)
Lemma sync_loop (e : env) (src : string) (l : list path) (w : world) :
  src <> DOCS_DIR e ->
  Forall (fun p => path_dir p = src /\ is_Some (read_file (files w) p)) l ->
  (forall d, d <> DOCS_DIR e ->
     files (foldl (sync_one e) w l) !! d = files w !! d)
  /\ (forall name,
        read_file (files (foldl (sync_one e) w l))
          (os_path_join (DOCS_DIR e) name)
        = if copies e name l
          then read_file (files w) (os_path_join src name)
          else read_file (files w) (os_path_join (DOCS_DIR e) name)).
Proof.
  intros Hsrc. revert w. induction l as [|p l IH]; intros w Hl; [done |].
  apply Forall_cons in Hl as [[Hp [content Hread]] Hl].
  cbn [foldl].
  set (dest := os_path_join (DOCS_DIR e) (os_path_basename p)).
  assert (p <> dest) as Hpd.
  { intros Heq. apply Hsrc. rewrite <- Hp, Heq. done. }
  assert ((forall d, d <> DOCS_DIR e ->
             files (sync_one e w p) !! d = files w !! d)
          /\ (forall name,
                read_file (files (sync_one e w p))
                  (os_path_join (DOCS_DIR e) name)
                = if String.eqb (path_name p) name
                     && bool_decide (copy_error e p dest = None)
                  then read_file (files w) p
                  else read_file (files w) (os_path_join (DOCS_DIR e) name)))
    as [Hother Hdocs].
  { unfold sync_one, shutil_copyfile. fold dest.
    destruct (decide (p = dest)) as [|_]; [done |].
    destruct (copy_error e p dest) as [msg|] eqn:Herr.
    - split; [done |]. intros name. by rewrite andb_false_r.
    - rewrite Hread. cbn [files logging set_files]. split.
      + intros d Hd. by apply write_file_other_dir.
      + intros name. rewrite bool_decide_eq_true_2 by done.
        rewrite andb_true_r.
        destruct (String.eqb_spec (path_name p) name) as [<-|Hne].
        * by rewrite read_write_file.
        * apply read_write_file_ne.
          unfold dest, os_path_join, os_path_basename. by intros [= ?]. }
  assert (forall q, path_dir q = src ->
            read_file (files (sync_one e w p)) q = read_file (files w) q)
    as Hsame.
  { intros q Hq. unfold read_file, listdir. rewrite Hother; [done |].
    by rewrite Hq. }
  destruct (IH (sync_one e w p)) as [IHother IHdocs].
  { eapply Forall_impl; [exact Hl |]. intros q [Hq Hs].
    split; [done |]. by rewrite Hsame. }
  split.
  - intros d Hd. by rewrite IHother, Hother.
  - intros name. rewrite IHdocs, Hdocs, Hsame by done.
    unfold copies. cbn [existsb]. fold dest.
    destruct (existsb _ l); [by rewrite orb_true_r |].
    rewrite orb_false_r.
    destruct (String.eqb_spec (path_name p) name) as [<-|Hne]; [| done].
    assert (os_path_join src (path_name p) = p) as ->
      by (destruct p; simpl in *; by subst).
    done.
Qed.

Lemma glob_paths (fs : gmap string directory) (d : string)
    (pattern : string -> bool) (p : path) :
  p ∈ glob fs d pattern <->
  path_dir p = d /\ path_name p ∈ (listdir fs d).*1
  /\ pattern (path_name p) = true.
Proof.
  unfold glob. rewrite list_elem_of_fmap. split.
  - intros (n & -> & Hn). apply list_elem_of_In, filter_In in Hn as [Hin Hm].
    by apply list_elem_of_In in Hin.
  - intros (Hd & Hin & Hm). exists (path_name p). split.
    + destruct p. simpl in *. by subst.
    + apply list_elem_of_In, filter_In. split; [by apply list_elem_of_In | done].
Qed.

Lemma copies_true (e : env) (name : string) (l : list path) :
  copies e name l = true <->
  exists p, p ∈ l /\ path_name p = name
            /\ copy_error e p (os_path_join (DOCS_DIR e) (path_name p)) = None.
Proof.
  unfold copies. rewrite existsb_exists. split.
  - intros (p & Hin & [Hn Hc]%andb_prop). exists p.
    apply list_elem_of_In in Hin. apply String.eqb_eq in Hn.
    by apply bool_decide_eq_true in Hc.
  - intros (p & Hin & Hn & Hc). exists p. split; [by apply list_elem_of_In |].
    apply andb_true_intro. split; [by apply String.eqb_eq |].
    by apply bool_decide_eq_true.
Qed.

(** A report whose copy the operating system allows is in the docs folder
    after the sync, with the content it has in the reports folder,
    whatever happens to the copies of the other reports. *)
Theorem sync_copies_report (e : env) (w : world) (name : string) :
  report_dir e <> DOCS_DIR e ->
  name ∈ names w (report_dir e) ->
  match_html name = true ->
  copy_error e (os_path_join (report_dir e) name)
    (os_path_join (DOCS_DIR e) name) = None ->
  read_file (files (sync_reports_to_docs e w)) (os_path_join (DOCS_DIR e) name)
    = read_file (files w) (os_path_join (report_dir e) name)
  /\ is_Some (read_file (files w) (os_path_join (report_dir e) name)).
Proof.
  intros Hsrc Hin Hm Hc. unfold sync_reports_to_docs.
  destruct (sync_loop e (report_dir e)
              (glob (files w) (report_dir e) match_html) w Hsrc) as [_ Hdocs].
  { apply Forall_forall. intros p (Hd & Hn & _)%glob_paths.
    split; [done |]. unfold read_file. rewrite Hd. by apply dir_read_is_Some. }
  rewrite Hdocs.
  assert (copies e name (glob (files w) (report_dir e) match_html) = true)
    as ->.
  { apply copies_true. exists (os_path_join (report_dir e) name).
    split; [by apply glob_paths |]. done. }
  split; [done |]. unfold read_file. by apply dir_read_is_Some.
Qed.

Lemma sync_copies_report_witness :
  read_file (files (sync_reports_to_docs Demo.e_demo Demo.w_demo))
    (os_path_join "/srv/zt3/docs" "success_report_20250430.html")
  = Some "april".
Proof.
  destruct (sync_copies_report Demo.e_demo Demo.w_demo
              "success_report_20250430.html") as [Heq _];
    [apply (bool_decide_unpack _); vm_compute; exact I
    | apply (bool_decide_unpack _); vm_compute; exact I
    | reflexivity | reflexivity |].
  exact Heq.
Defined.

(** When the reports folder is the docs folder itself, no copy is made:
    the files stay as they are and one error is logged per report. *)
Lemma sync_loop_same_folder (e : env) (l : list path) (w : world) :
  Forall (fun p => path_dir p = DOCS_DIR e) l ->
  files (foldl (sync_one e) w l) = files w
  /\ log (foldl (sync_one e) w l) =
       log w
       ++ ((fun p =>
              (ERROR,
               "Error syncing report " +:+ str_path p +:+ " to docs: "
               +:+ str_path p +:+ " and " +:+ str_path p
               +:+ " are the same file")) <$> l).
Proof.
  revert w. induction l as [|p l IH]; intros w Hl.
  - simpl. by rewrite app_nil_r.
  - apply Forall_cons in Hl as [Hp Hl]. cbn [foldl].
    destruct (IH (sync_one e w p) Hl) as [-> ->].
    assert (os_path_join (DOCS_DIR e) (os_path_basename p) = p) as Hpeq
      by (destruct p; simpl in *; by subst).
    unfold sync_one, shutil_copyfile. rewrite Hpeq.
    destruct (decide (p = p)); [| done].
    split; [done |]. cbn [log logging]. by rewrite <- app_assoc.
Qed.

Theorem sync_same_folder (e : env) (w : world) :
  report_dir e = DOCS_DIR e ->
  files (sync_reports_to_docs e w) = files w
  /\ log (sync_reports_to_docs e w) =
       log w
       ++ ((fun p =>
              (ERROR,
               "Error syncing report " +:+ str_path p +:+ " to docs: "
               +:+ str_path p +:+ " and " +:+ str_path p
               +:+ " are the same file"))
             <$> glob (files w) (report_dir e) match_html).
Proof.
  intros Hsame. unfold sync_reports_to_docs. apply sync_loop_same_folder.
  apply Forall_forall. intros p (Hd & _)%glob_paths. by rewrite Hd.
Qed.

Lemma sync_same_folder_witness :
  files (sync_reports_to_docs Demo.e_docs_as_reports Demo.w_demo)
    = files Demo.w_demo
  /\ log (sync_reports_to_docs Demo.e_docs_as_reports Demo.w_demo) =
       [(ERROR,
         "Error syncing report /srv/zt3/docs/success_report_20250101.html to docs: /srv/zt3/docs/success_report_20250101.html and /srv/zt3/docs/success_report_20250101.html are the same file")].
Proof.
  apply (sync_same_folder Demo.e_docs_as_reports Demo.w_demo). reflexivity.
Defined.

(** The sync writes into the docs folder only, and there only the files
    that have the name of an HTML report of the reports folder. *)
Theorem sync_writes_reports_into_docs_only (e : env) (w : world) :
  (forall d, d <> DOCS_DIR e ->
     files (sync_reports_to_docs e w) !! d = files w !! d)
  /\ (forall name,
        name ∉ List.filter match_html (names w (report_dir e)) ->
        read_file (files (sync_reports_to_docs e w))
          (os_path_join (DOCS_DIR e) name)
        = read_file (files w) (os_path_join (DOCS_DIR e) name)).
Proof.
  destruct (decide (report_dir e = DOCS_DIR e)) as [Hsame|Hsrc].
  - destruct (sync_same_folder e w Hsame) as [-> _]. done.
  - unfold sync_reports_to_docs.
    destruct (sync_loop e (report_dir e)
                (glob (files w) (report_dir e) match_html) w Hsrc)
      as [Hother Hdocs].
    { apply Forall_forall. intros p (Hd & Hn & _)%glob_paths.
      split; [done |]. unfold read_file. rewrite Hd.
      by apply dir_read_is_Some. }
    split; [done |]. intros name Hname. rewrite Hdocs.
    destruct (copies e name _) eqn:Hc; [| done].
    apply copies_true in Hc as (p & (Hd & Hn & Hm)%glob_paths & <- & _).
    destruct Hname. apply list_elem_of_In, filter_In.
    split; [by apply list_elem_of_In | done].
Qed.

(** *** The landing page *)

Lemma str_split_nonempty (sep : ascii) (s : string) :
  exists h t, str_split sep s = h :: t.
Proof.
  induction s as [|c s (h & t & IH)]; simpl; [by eexists _, _ |].
  destruct (Ascii.eqb c sep); [by eexists _, _ |].
  rewrite IH. by eexists _, _.
Qed.

(** A name that the pattern of a role picks always has a date token. *)
Lemma found_names_parse (role name : string) :
  str_count "_" role = 0 -> match_report role name = true ->
  exists t, trading_date_of name = Ok t.
Proof.
  intros Hrole (t & _ & ->)%match_report_iff. unfold trading_date_of.
  change (role +:+ "_report_" +:+ t +:+ ".html")
    with (role +:+ String "_" ("report" +:+ String "_" (t +:+ ".html"))).
  rewrite split_first by done. rewrite (split_first "_" "report") by done.
  destruct (str_split_nonempty "_" (t +:+ ".html")) as (h & tl & ->).
  cbn [subscript lookup list_lookup bind].
  destruct (str_split_nonempty "." h) as (h' & tl' & ->).
  by exists h'.
Qed.

Lemma scan_leaves_world (l : list path) (daily0 daily : gmap string path)
    (w w' : world) :
  Forall (fun p => exists t, trading_date_of (os_path_basename p) = Ok t) l ->
  for_each scan_one l (daily0, w) = Ok (daily, w') -> w' = w.
Proof.
  revert daily0. induction l as [|p l IH]; intros daily0 Hl Hscan.
  - by injection Hscan as _ <-.
  - apply Forall_cons in Hl as [[t Ht] Hl].
    cbn [for_each] in Hscan. rewrite scan_one_eq, Ht in Hscan.
    cbn [bind fst snd] in Hscan. by eapply IH.
Qed.

Lemma glob_found_parse (fs : gmap string directory) (d role : string) :
  str_count "_" role = 0 ->
  Forall (fun p => exists t, trading_date_of (os_path_basename p) = Ok t)
    (glob fs d (match_report role)).
Proof.
  intros Hrole. apply Forall_forall. intros p (_ & _ & Hm)%glob_paths.
  by apply (found_names_parse role).
Qed.

(** What [landing_page_from] returns: the world it was given, with the
    index file written and one line logged. *)
Lemma landing_page_from_exact (e : env) (dir : string) (w : world) :
  exists ds df,
    (forall d, ds !! d =
       last (List.filter (has_date d) (glob (files w) dir (match_report "success"))))
    /\ (forall d, df !! d =
          last (List.filter (has_date d)
                  (glob (files w) dir (match_report "failure"))))
    /\ landing_page_from e dir w =
         Ok (logging INFO
               ("Landing page updated at: " +:+ str_path (index_filepath e))
               (set_files
                  (write_file (index_filepath e)
                     (landing_html (entries_html "Success" (entries_of ds))
                        (entries_html "Failure" (entries_of df)))
                     (files w)) w)).
Proof.
  unfold landing_page_from, scan.
  destruct (for_each_scan (glob (files w) dir (match_report "success")) ∅ w)
    as (ds & w1 & Hs1 & _ & _ & Hds).
  assert (w1 = w) as ->
    by exact (scan_leaves_world _ _ _ _ _
                (glob_found_parse _ _ "success" eq_refl) Hs1).
  rewrite Hs1. cbn [bind]. rewrite links_latest. cbn [bind].
  destruct (for_each_scan (glob (files w) dir (match_report "failure")) ∅ w)
    as (df & w2 & Hs2 & _ & _ & Hdf).
  assert (w2 = w) as ->
    by exact (scan_leaves_world _ _ _ _ _
                (glob_found_parse _ _ "failure" eq_refl) Hs2).
  rewrite Hs2. cbn [bind]. rewrite links_latest. cbn [bind].
  exists ds, df. split; [| split; [| done]].
  - intros d. rewrite Hds. by destruct (last _).
  - intros d. rewrite Hdf. by destruct (last _).
Qed.

(** [update_landing_page] writes [index.html] in the docs folder and
    nothing else: every other file reads as before, and no command is
    run. *)
Theorem landing_page_writes_index_only (e : env) (w : world) :
  exists w',
    update_landing_page e w = Ok w'
    /\ is_Some (read_file (files w') (index_filepath e))
    /\ (forall p, p <> index_filepath e ->
          read_file (files w') p = read_file (files w) p)
    /\ (forall d, d <> DOCS_DIR e -> files w' !! d = files w !! d)
    /\ commands w' = commands w.
Proof.
  unfold update_landing_page.
  destruct (landing_page_from_exact e (report_dir e) w) as (ds & df & _ & _ & ->).
  eexists. split; [done |]. cbn [files logging set_files commands].
  split; [by rewrite read_write_file |].
  split; [| split; [| done]].
  - intros p Hp. by apply read_write_file_ne.
  - intros d Hd. by apply write_file_other_dir.
Qed.

(** No file that the patterns pick lacks a date token, so the warning of
    the scan is never logged: [update_landing_page] adds one line to the
    log, the one that says where the page is. *)
Theorem landing_page_logs_one_line (e : env) (w : world) :
  exists w',
    update_landing_page e w = Ok w'
    /\ log w' =
         log w
         ++ [(INFO, "Landing page updated at: " +:+ DOCS_DIR e +:+ "/index.html")].
Proof.
  unfold update_landing_page.
  destruct (landing_page_from_exact e (report_dir e) w) as (ds & df & _ & _ & ->).
  by eexists.
Qed.

(** Every link of the landing page opens a file that the reports folder
    lists under the pattern of its role, and shows the date token of that
    file's name. *)
Lemma entries_are_found (role : string) (fs : gmap string directory)
    (dir : string) (daily : gmap string path) :
  (forall d, daily !! d =
     last (List.filter (has_date d) (glob fs dir (match_report role)))) ->
  Forall
    (fun '(day, report_file) =>
       report_file ∈ (listdir fs dir).*1
       /\ match_report role report_file = true
       /\ trading_date_of report_file = Ok day)
    (entries_of daily).
Proof.
  intros Hdaily. unfold entries_of. apply Forall_fmap, Forall_forall.
  intros day Hday. apply latest_keys in Hday as [p Hp]. cbn.
  rewrite Hp. cbn [from_option].
  rewrite Hdaily in Hp. apply last_Some_elem_of in Hp.
  apply list_elem_of_In, filter_In in Hp as [Hin Hdate].
  apply list_elem_of_In, glob_paths in Hin as (_ & Hin & Hm).
  split; [done |]. split; [done |].
  unfold has_date in Hdate. unfold os_path_basename in *.
  destruct (trading_date_of (path_name p)) as [t|]; [| done].
  apply String.eqb_eq in Hdate. by subst.
Qed.

Theorem links_open_found_reports (e : env) (w : world) :
  exists w' success failure,
    update_landing_page e w = Ok w'
    /\ index_content e (Ok w') =
         Some (landing_html (entries_html "Success" success)
                 (entries_html "Failure" failure))
    /\ Forall
         (fun '(day, report_file) =>
            report_file ∈ names w (report_dir e)
            /\ match_report "success" report_file = true
            /\ trading_date_of report_file = Ok day) success
    /\ Forall
         (fun '(day, report_file) =>
            report_file ∈ names w (report_dir e)
            /\ match_report "failure" report_file = true
            /\ trading_date_of report_file = Ok day) failure.
Proof.
  unfold update_landing_page.
  destruct (landing_page_from_exact e (report_dir e) w)
    as (ds & df & Hds & Hdf & ->).
  eexists _, (entries_of ds), (entries_of df). split; [done |].
  split; [cbn [index_content files logging set_files];
          by rewrite read_write_file |].
  split; by eapply entries_are_found.
Qed.

(** When the reports folder holds no file that the patterns pick, the
    page says for each role that no report is available. *)
Theorem empty_folder_gives_placeholders (e : env) (w : world) :
  glob (files w) (report_dir e) (match_report "success") = [] ->
  glob (files w) (report_dir e) (match_report "failure") = [] ->
  index_content e (update_landing_page e w) = Some (landing_html "" "")
  /\ is_Some (String.index 0 "<li>No Success Reports Available</li>"
                (landing_html "" ""))
  /\ is_Some (String.index 0 "<li>No Failure Reports Available</li>"
                (landing_html "" "")).
Proof.
  intros Hs Hf. unfold update_landing_page.
  destruct (landing_page_from_exact e (report_dir e) w)
    as (ds & df & Hds & Hdf & ->).
  assert (ds = ∅) as -> by (apply map_eq; intros d; by rewrite Hds, Hs).
  assert (df = ∅) as -> by (apply map_eq; intros d; by rewrite Hdf, Hf).
  assert (entries_of (∅ : gmap string path) = []) as -> by by vm_compute.
  split; [cbn [index_content files logging set_files];
          by rewrite read_write_file |].
  split; eexists; vm_compute; reflexivity.
Qed.

(** *** The publication *)

(** What a publication leaves: the files of the landing page's world, the
    commands from [git add] on, and a last line of log that tells how far
    it went. *)
Lemma publish_outcome (e : env) (success_filepath : string)
    (failure_filepath : option string) (w : world) :
  exists w1 w' later,
    update_landing_page e (sync_reports_to_docs e w) = Ok w1
    /\ publish_both_reports e success_filepath failure_filepath w = Ok w'
    /\ files w' = files w1
    /\ let add :=
         ["git"; "add"]
         ++ ((fun f => "docs/" +:+ os_path_basename f)
               <$> glob (files w1) (DOCS_DIR e) match_html) in
       let commit :=
         ["git"; "commit"; "-m"; "Update GitHub Pages reports: " +:+ now e] in
       commands w' = commands w ++ add :: later
       /\ last (log w') =
            Some (if succeeds e add then
                    if succeeds e commit then
                      if succeeds e ["git"; "push"] then
                        (INFO,
                         "Reports published successfully via GitHub Pages in a single commit.")
                      else (ERROR, "Git push failed for reports.")
                    else (ERROR, "Git commit failed for reports.")
                  else (ERROR, "Git add failed for reports.")).
Proof.
  unfold publish_both_reports.
  destruct (update_landing_page_content e (sync_reports_to_docs e w))
    as (ds & df & w1 & Hw1 & _ & _ & _ & Hc).
  rewrite Hw1. rewrite sync_commands in Hc. cbn [bind].
  unfold run_git_command, succeeds.
  destruct (subprocess_run e
              (["git"; "add"]
               ++ ((fun f => "docs/" +:+ os_path_basename f)
                     <$> glob (files w1) (DOCS_DIR e) match_html)))
    as [out1 err1|msg1] eqn:Hadd.
  - destruct (subprocess_run e
                ["git"; "commit"; "-m";
                 "Update GitHub Pages reports: " +:+ now e])
      as [out2 err2|msg2] eqn:Hcommit.
    + destruct (subprocess_run e ["git"; "push"]) as [out3 err3|msg3] eqn:Hpush;
        eexists w1, _, _; (split; [done |]); (split; [done |]);
        destruct (String.eqb err1 ""), (String.eqb err2 "");
        try destruct (String.eqb err3 "");
        cbn [files logging commands log];
        (split; [done |]); cbv zeta;
        rewrite Hc, last_snoc, <- ?app_assoc, ?Hadd, ?Hcommit, ?Hpush;
        (split; [reflexivity | done]).
    + eexists w1, _, _. split; [done |]. split; [done |].
      destruct (String.eqb err1 "");
        cbn [files logging commands log];
        (split; [done |]); cbv zeta;
        rewrite Hc, last_snoc, <- ?app_assoc, ?Hadd, ?Hcommit;
        (split; [reflexivity | done]).
  - eexists w1, _, _. split; [done |]. split; [done |].
    cbn [files logging commands log].
    split; [done |]. cbv zeta. rewrite Hc, last_snoc, Hadd.
    split; [reflexivity | done].
Qed.

(** The last line that a publication logs tells its outcome: success when
    add, commit and push all succeeded, and otherwise the first of the
    three that failed. *)
Theorem publish_logs_its_outcome (e : env) (success_filepath : string)
    (failure_filepath : option string) (w : world) :
  exists w' files_to_commit,
    publish_both_reports e success_filepath failure_filepath w = Ok w'
    /\ files_to_commit =
         ((fun f => "docs/" +:+ os_path_basename f)
            <$> glob (files w') (DOCS_DIR e) match_html)
    /\ last (log w') =
         Some (if succeeds e (["git"; "add"] ++ files_to_commit) then
                 if succeeds e
                      ["git"; "commit"; "-m";
                       "Update GitHub Pages reports: " +:+ now e] then
                   if succeeds e ["git"; "push"] then
                     (INFO,
                      "Reports published successfully via GitHub Pages in a single commit.")
                   else (ERROR, "Git push failed for reports.")
                 else (ERROR, "Git commit failed for reports.")
               else (ERROR, "Git add failed for reports.")).
Proof.
  destruct (publish_outcome e success_filepath failure_filepath w)
    as (w1 & w' & later & _ & Hw' & Hfiles & _ & Hlast).
  exists w'. eexists. split; [done |]. split; [done |].
  by rewrite Hfiles.
Qed.

(** The landing page is always among the files that [git add] stages. *)
Theorem index_is_staged (e : env) (success_filepath : string)
    (failure_filepath : option string) (w : world) :
  exists w' files_to_commit later,
    publish_both_reports e success_filepath failure_filepath w = Ok w'
    /\ commands w' = commands w ++ (["git"; "add"] ++ files_to_commit) :: later
    /\ "docs/index.html" ∈ files_to_commit.
Proof.
  destruct (publish_outcome e success_filepath failure_filepath w)
    as (w1 & w' & later & Hw1 & Hw' & Hfiles & Hcmd & _).
  exists w'. eexists _, later. split; [done |]. split; [exact Hcmd |].
  destruct (landing_page_writes_index_only e (sync_reports_to_docs e w))
    as (w1' & Hw1' & Hindex & _).
  rewrite Hw1 in Hw1'. injection Hw1' as <-.
  apply list_elem_of_fmap. exists (index_filepath e). split; [done |].
  apply glob_paths. split; [done |]. split; [| done].
  unfold read_file in Hindex. by apply dir_read_is_Some in Hindex.
Qed.

(** *** Links that resolve *)

Lemma substring_all (s : string) : substring 0 (String.length s) s = s.
Proof. induction s as [|c s IH]; simpl; [done | by rewrite IH]. Qed.

Lemma endswith_append (a suffix : string) :
  endswith suffix (a +:+ suffix) = true.
Proof.
  unfold endswith. rewrite length_append.
  replace (String.length a + String.length suffix - String.length suffix)
    with (String.length a + 0) by lia.
  rewrite substring_skip, substring_all, String.eqb_refl.
  apply Nat.leb_le. lia.
Qed.

(** A report of a role is an HTML file that the sync copies, and it is not
    the index. *)
Lemma report_is_html (role name : string) :
  role = "success" \/ role = "failure" ->
  match_report role name = true ->
  match_html name = true /\ name <> "index.html".
Proof.
  intros Hrole Hm. split.
  - apply match_report_iff in Hm as (t & _ & ->). unfold match_html.
    rewrite <- !append_assoc, endswith_append.
    by destruct Hrole as [-> | ->].
  - intros ->. by destruct Hrole as [-> | ->].
Qed.

Lemma sync_keeps_report_names (e : env) (w : world) :
  report_dir e <> DOCS_DIR e ->
  names (sync_reports_to_docs e w) (report_dir e) = names w (report_dir e).
Proof.
  intros Hsrc. unfold names, listdir.
  destruct (sync_writes_reports_into_docs_only e w) as [Hother _].
  by rewrite Hother.
Qed.

(** After a publication in which every copy succeeded, every link of the
    landing page opens a file that the docs folder holds. *)
Theorem published_links_resolve (e : env) (success_filepath : string)
    (failure_filepath : option string) (w : world) :
  report_dir e <> DOCS_DIR e ->
  (forall src dst, copy_error e src dst = None) ->
  exists w' success failure,
    publish_both_reports e success_filepath failure_filepath w = Ok w'
    /\ index_content e (Ok w') =
         Some (landing_html (entries_html "Success" success)
                 (entries_html "Failure" failure))
    /\ Forall
         (fun '(day, report_file) =>
            is_Some (read_file (files w')
                       (os_path_join (DOCS_DIR e) report_file)))
         (success ++ failure).
Proof.
  intros Hsrc Hcopy.
  destruct (publish_outcome e success_filepath failure_filepath w)
    as (w1 & w' & later & Hw1 & Hw' & Hfiles & _).
  destruct (links_open_found_reports e (sync_reports_to_docs e w))
    as (w1' & success & failure & Hw1' & Hindex & Hs & Hf).
  rewrite Hw1 in Hw1'. injection Hw1' as <-.
  destruct (landing_page_writes_index_only e (sync_reports_to_docs e w))
    as (w1' & Hw1' & _ & Hkept & _).
  rewrite Hw1 in Hw1'. injection Hw1' as <-.
  exists w', success, failure. split; [done |].
  split; [by cbn [index_content] in *; rewrite Hfiles |].
  assert (forall role day report_file,
            role = "success" \/ role = "failure" ->
            report_file ∈ names (sync_reports_to_docs e w) (report_dir e)
            /\ match_report role report_file = true
            /\ trading_date_of report_file = Ok day ->
            is_Some (read_file (files w')
                       (os_path_join (DOCS_DIR e) report_file))) as Hone.
  { intros role day report_file Hrole (Hin & Hm & _).
    rewrite sync_keeps_report_names in Hin by done.
    destruct (report_is_html role report_file Hrole Hm) as [Hhtml Hne].
    destruct (sync_copies_report e w report_file Hsrc Hin Hhtml (Hcopy _ _))
      as [Hcopied Hsome].
    rewrite Hfiles, Hkept; [by rewrite Hcopied |].
    unfold index_filepath, os_path_join. by intros [= ?]. }
  apply Forall_app. split.
  - eapply Forall_impl; [exact Hs |]. intros [day report_file].
    apply (Hone "success"). by left.
  - eapply Forall_impl; [exact Hf |]. intros [day report_file].
    apply (Hone "failure"). by right.
Qed.

Lemma published_links_resolve_witness :
  exists w' success failure,
    publish_both_reports Demo.e_demo "" None Demo.w_demo = Ok w'
    /\ index_content Demo.e_demo (Ok w') =
         Some (landing_html (entries_html "Success" success)
                 (entries_html "Failure" failure))
    /\ Forall
         (fun '(day, report_file) =>
            is_Some (read_file (files w')
                       (os_path_join (DOCS_DIR Demo.e_demo) report_file)))
         (success ++ failure).
Proof.
  apply (published_links_resolve Demo.e_demo "" None Demo.w_demo).
  - apply (bool_decide_unpack _). vm_compute. exact I.
  - reflexivity.
Defined.

(** *** Syncing twice *)

Lemma dir_write_same (n content : string) (d : directory) :
  dir_read n d = Some content -> dir_write n content d = d.
Proof.
  induction d as [|[k c] d IH]; simpl; [done |].
  destruct (String.eqb_spec k n) as [->|Hne].
  - by intros [= ->].
  - intros H. by rewrite IH.
Qed.

Lemma write_file_same (p : path) (content : string)
    (fs : gmap string directory) :
  read_file fs p = Some content -> write_file p content fs = fs.
Proof.
  unfold read_file, write_file, listdir. intros Hread.
  destruct (fs !! path_dir p) as [d|] eqn:Hd; simpl in *; [| done].
  rewrite dir_write_same by done. by apply insert_id.
Qed.

(** A loop of the sync over files that the docs folder already holds as
    their copies changes no file. *)
Lemma sync_loop_settled (e : env) (l : list path) (w : world) :
  Forall
    (fun p =>
       copy_error e p (os_path_join (DOCS_DIR e) (path_name p)) = None ->
       is_Some (read_file (files w) p) ->
       read_file (files w) (os_path_join (DOCS_DIR e) (path_name p))
       = read_file (files w) p) l ->
  files (foldl (sync_one e) w l) = files w.
Proof.
  revert w. induction l as [|p l IH]; intros w Hl; [done |].
  apply Forall_cons in Hl as [Hp Hl]. cbn [foldl].
  assert (files (sync_one e w p) = files w) as Hstep.
  { unfold sync_one, shutil_copyfile, os_path_basename.
    destruct (decide (p = _)); [done |].
    destruct (copy_error e p _) as [msg|]; [done |].
    destruct (read_file (files w) p) as [content|] eqn:Hread; [| done].
    cbn [files logging set_files]. apply write_file_same.
    by rewrite Hp. }
  rewrite IH; [done |]. by rewrite Hstep.
Qed.

(** Syncing a second time changes no file. *)
Theorem sync_twice (e : env) (w : world) :
  report_dir e <> DOCS_DIR e ->
  files (sync_reports_to_docs e (sync_reports_to_docs e w))
  = files (sync_reports_to_docs e w).
Proof.
  intros Hsrc. unfold sync_reports_to_docs at 1.
  apply sync_loop_settled, Forall_forall.
  intros p (Hd & Hn & Hm)%glob_paths Hcopy _.
  fold (names (sync_reports_to_docs e w) (report_dir e)) in Hn.
  rewrite sync_keeps_report_names in Hn by done.
  assert (p = os_path_join (report_dir e) (path_name p)) as Hp
    by (destruct p; simpl in *; by subst).
  rewrite Hp in Hcopy. cbn [path_name os_path_join] in Hcopy.
  destruct (sync_copies_report e w (path_name p) Hsrc Hn Hm Hcopy)
    as [Hcopied _].
  rewrite Hcopied. rewrite Hp at 2.
  unfold read_file, listdir. cbn [path_dir path_name os_path_join].
  destruct (sync_writes_reports_into_docs_only e w) as [Hother _].
  by rewrite Hother.
Qed.

Lemma sync_twice_witness :
  files (sync_reports_to_docs Demo.e_demo
           (sync_reports_to_docs Demo.e_demo Demo.w_demo))
  = files (sync_reports_to_docs Demo.e_demo Demo.w_demo).
Proof.
  apply (sync_twice Demo.e_demo Demo.w_demo).
  apply (bool_decide_unpack _). vm_compute. exact I.
Defined.

Lemma empty_folder_gives_placeholders_witness :
  index_content Demo.e_demo
    (update_landing_page Demo.e_demo Demo.w_no_reports)
  = Some (landing_html "" "").
Proof.
  apply (empty_folder_gives_placeholders Demo.e_demo Demo.w_no_reports);
    reflexivity.
Defined.

End PublisherFacts.

(** * Further properties of the validator *)

Module ValidatorFacts.
Import Py ValidateIsins Vocabulary StringFacts ValidateIsinsFacts.

(** *** The verdict of [validate_instrument_key] *)

Lemma bad_request_reason_readable (key : string) (r : response) :
  match bad_request_reason key r with
  | Ok _ => reason_readable r = true
  | Raise _ => reason_readable r = false
  end.
Proof.
  unfold bad_request_reason, reason_readable.
  destruct (body r) as [v|[]]; cbn [bind]; try done.
  destruct (json_get v "errors" _) as [errors|[]]; cbn [bind]; try done.
  destruct (json_first errors) as [first|[]]; cbn [bind]; try done.
  unfold json_get. by destruct first.
Qed.

Ltac eqb_to_eq :=
  repeat match goal with
         | H : (_ =? _)%nat = true |- _ => apply Nat.eqb_eq in H
         | H : (_ =? _)%nat = false |- _ => apply Nat.eqb_neq in H
         end.

(** How one turn ends, by what its request met. *)
Lemma attempt_once_flow (http_get : nat -> get_outcome) (key : string)
    (attempt : nat) :
  (attempt_once http_get key attempt).2 =
    if api_success (http_get attempt) then Return true
    else if final_failure (http_get attempt) then Return false
    else if (attempt =? 0)%nat then Continue else Return false.
Proof.
  unfold attempt_once, api_success, final_failure.
  destruct (http_get attempt) as [r|ex].
  - unfold on_response.
    pose proof (bad_request_reason_readable key r) as Hreason.
    destruct (status_code r =? 200)%nat eqn:H200.
    + assert ((status_code r =? 404)%nat = false
              /\ (status_code r =? 400)%nat = false) as [-> ->]
        by (eqb_to_eq; split; apply Nat.eqb_neq; lia).
      cbn [andb orb].
      destruct (body r) as [[| | | | |m]|ex]; cbn [bind json_get];
        unfold log_then_retry, retry_once;
        try (destruct (is_request_exception ex));
        try (destruct (is_success _));
        by destruct (attempt =? 0)%nat.
    + cbn [andb].
      destruct (status_code r =? 429)%nat eqn:H429.
      * assert ((status_code r =? 404)%nat = false
                /\ (status_code r =? 400)%nat = false) as [-> ->]
          by (eqb_to_eq; split; apply Nat.eqb_neq; lia).
        unfold log_then_retry, retry_once. by destruct (attempt =? 0)%nat.
      * destruct (status_code r =? 404)%nat eqn:H404; [done |].
        destruct (status_code r =? 400)%nat eqn:H400; cbn [andb orb].
        -- destruct (bad_request_reason key r) as [evs|ex]; rewrite Hreason;
             cbn [bind]; [done |].
           unfold log_then_retry, retry_once.
           destruct (is_request_exception ex); by destruct (attempt =? 0)%nat.
        -- unfold log_then_retry, retry_once. by destruct (attempt =? 0)%nat.
  - unfold log_then_retry, retry_once.
    destruct (is_request_exception ex); by destruct (attempt =? 0)%nat.
Qed.

(** The key is found valid when the first request meets a success, or
    when it meets neither a success nor a final failure and the second
    request meets a success; a second request is made in that last case
    only. *)
Theorem validate_verdict (http_get : nat -> get_outcome) (key : string) :
  (validate_instrument_key http_get key).2 =
    api_success (http_get 0)
    || (negb (final_failure (http_get 0)) && api_success (http_get 1))
  /\ requests_made (validate_instrument_key http_get key).1 =
       if api_success (http_get 0) || final_failure (http_get 0) then 1 else 2.
Proof.
  unfold validate_instrument_key. cbn [seq attempts].
  pose proof (attempt_once_flow http_get key 0) as H0.
  pose proof (attempt_once_flow http_get key 1) as H1.
  destruct (attempt_once_shape http_get key 0) as (l0 & f0 & E0 & R0 & _).
  destruct (attempt_once_shape http_get key 1) as (l1 & f1 & E1 & R1 & S1).
  rewrite E0 in *. rewrite E1 in *. cbn [snd fst Nat.eqb] in *.
  destruct (api_success (http_get 0)).
  { subst f0. cbv beta iota zeta. cbn [fst snd orb].
    by rewrite requests_made_get, R0. }
  destruct (final_failure (http_get 0)).
  { subst f0. cbv beta iota zeta. cbn [fst snd orb negb andb].
    by rewrite requests_made_get, R0. }
  subst f0. cbn [orb negb andb].
  destruct (api_success (http_get 1)); subst f1;
    [| destruct (final_failure (http_get 1))];
    cbv beta iota zeta; cbn [fst snd];
    by rewrite requests_made_app, !requests_made_get, R0, R1.
Qed.

(** *** The loop of harvest *)

Lemma omap_one {A B : Type} (f : A -> option B) (i : A) (l : list A) :
  omap f (i :: l) = from_option (fun x => [x]) [] (f i) ++ omap f l.
Proof. cbn [omap list_omap]. by destruct (f i). Qed.

Lemma harvest_one_step (e : env) (stocks : list stock) (t : tally) (w : world)
    (i : nat) :
  let t' := (harvest_one e stocks (t, w) i).1 in
  let w' := (harvest_one e stocks (t, w) i).2 in
  valid t' = valid t ++ from_option (fun x => [x]) [] (valid_at e stocks i)
  /\ invalid t' =
       invalid t ++ from_option (fun x => [x]) [] (invalid_at e stocks i)
  /\ valid_count t' + length (valid t) = valid_count t + length (valid t')
  /\ invalid_count t' + length (invalid t)
     = invalid_count t + length (invalid t')
  /\ harvested t' = S (harvested t)
  /\ fs w' = fs w /\ posts w' = posts w /\ sleeps w' = sleeps w.
Proof.
  unfold harvest_one, valid_at, invalid_at.
  destruct (stocks !! i) as [s|]; cbn [process_stock snd fst].
  - destruct ((validate_instrument_key (http_get e i)
                 (instrument_key_of (isin s))).2);
      cbn [fst snd valid invalid valid_count invalid_count harvested
           from_option fs posts sleeps logging];
      rewrite ?app_nil_r, ?length_app; cbn [length];
      repeat split; done || lia.
  - cbn [fst snd valid invalid valid_count invalid_count harvested
         from_option]. rewrite !app_nil_r. repeat split; done.
Qed.

(** The loop, from any tally on: what it adds to the two lists, what it
    counts, and that it touches neither files nor messages. *)
Lemma harvest_from (e : env) (stocks : list stock) (futures : list nat)
    (t : tally) (w : world) :
  let t' := (harvest e stocks futures (t, w)).1 in
  let w' := (harvest e stocks futures (t, w)).2 in
  let hs :=
    match interrupt_at e with
    | Some j => take (j - harvested t) futures
    | None => futures
    end in
  valid t' = valid t ++ omap (valid_at e stocks) hs
  /\ invalid t' = invalid t ++ omap (invalid_at e stocks) hs
  /\ valid_count t' + length (valid t) = valid_count t + length (valid t')
  /\ invalid_count t' + length (invalid t)
     = invalid_count t + length (invalid t')
  /\ harvested t' = harvested t + length hs
  /\ fs w' = fs w /\ posts w' = posts w /\ sleeps w' = sleeps w.
Proof.
  revert t w. induction futures as [|i rest IH]; intros t w.
  - cbn [harvest fst snd].
    destruct (interrupt_at e); rewrite ?take_nil; cbn [omap list_omap length];
      rewrite ?app_nil_r; repeat split; done || lia.
  - cbn [harvest fst snd].
    pose proof (harvest_one_step e stocks t w i) as Hstep. cbv zeta in Hstep.
    destruct (harvest_one e stocks (t, w) i) as [t1 w1].
    cbn [fst snd] in Hstep.
    destruct Hstep as (Hv & Hi & Hvc & Hic & Hh & Hfs & Hposts & Hsleeps).
    specialize (IH t1 w1). cbv zeta in IH.
    destruct IH as (IHv & IHi & IHvc & IHic & IHh & IHfs & IHposts & IHsleeps).
    unfold interrupted. destruct (interrupt_at e) as [j|].
    + destruct (j <=? harvested t) eqn:Hle.
      * apply Nat.leb_le in Hle.
        replace (j - harvested t) with 0 by lia.
        cbn [take omap list_omap length fst snd fs posts sleeps logging].
        rewrite !app_nil_r. repeat split; done || lia.
      * apply Nat.leb_gt in Hle.
        replace (j - harvested t) with (S (j - S (harvested t))) by lia.
        rewrite Hh in *. cbn [take length]. rewrite !omap_one, !app_assoc.
        rewrite <- Hv, <- Hi, IHfs, IHposts, IHsleeps.
        apply (f_equal length) in Hv, Hi. rewrite length_app in Hv, Hi.
        repeat split; done || lia.
    + cbn [length]. rewrite !omap_one, !app_assoc.
      rewrite <- Hv, <- Hi, IHfs, IHposts, IHsleeps.
      apply (f_equal length) in Hv, Hi. rewrite length_app in Hv, Hi.
      repeat split; done || lia.
Qed.

(** *** What the log keeps of a validation *)

Lemma complaints_app (a b : list event) :
  complaints (a ++ b) = complaints a ++ complaints b.
Proof. unfold complaints. by rewrite List.filter_app. Qed.

Lemma attempt_once_complaints (http_get : nat -> get_outcome) (key : string)
    (attempt : nat) :
  length (complaints (attempt_once http_get key attempt).1) =
    if api_success (http_get attempt) then 0 else 1.
Proof.
  unfold attempt_once, api_success, on_response, bad_request_reason,
    log_then_retry, retry_once, bind, json_get.
  repeat case_match; simplify_eq/=; try done; congruence.
Qed.

(** Every request that does not meet a success leaves one line of level
    WARNING or ERROR in the log, and a success leaves none: no failure of
    a request goes unreported. *)
Theorem failures_are_logged (http_get : nat -> get_outcome) (key : string) :
  let evs := (validate_instrument_key http_get key).1 in
  let verdict := (validate_instrument_key http_get key).2 in
  length (complaints evs) = requests_made evs - (if verdict then 1 else 0).
Proof.
  unfold validate_instrument_key. cbn [seq attempts].
  pose proof (attempt_once_flow http_get key 0) as H0.
  pose proof (attempt_once_flow http_get key 1) as H1.
  pose proof (attempt_once_complaints http_get key 0) as C0.
  pose proof (attempt_once_complaints http_get key 1) as C1.
  destruct (attempt_once_shape http_get key 0) as (l0 & f0 & E0 & R0 & _).
  destruct (attempt_once_shape http_get key 1) as (l1 & f1 & E1 & R1 & _).
  rewrite E0 in *. rewrite E1 in *. cbn [snd fst Nat.eqb] in *.
  destruct (api_success (http_get 0)).
  { subst f0. cbv beta iota zeta. cbn [fst snd].
    rewrite requests_made_get, R0, C0. done. }
  destruct (final_failure (http_get 0)).
  { subst f0. cbv beta iota zeta. cbn [fst snd].
    rewrite requests_made_get, R0, C0. done. }
  subst f0.
  destruct (api_success (http_get 1)); subst f1;
    [| destruct (final_failure (http_get 1))];
    cbv beta iota zeta; cbn [fst snd];
    rewrite complaints_app, length_app, C0, C1, requests_made_app,
      !requests_made_get, R0, R1; done.
Qed.

(** *** The tallies of a run *)

Lemma valid_or_invalid (e : env) (stocks : list stock) (hs : list nat) :
  Permutation
    (omap (valid_at e stocks) hs ++ omap (invalid_at e stocks) hs)
    (entry_of <$> omap (fun i => stocks !! i) hs).
Proof.
  induction hs as [|i hs IH]; [done |].
  rewrite !omap_one, fmap_app.
  assert (match stocks !! i with
          | Some s =>
              (valid_at e stocks i = Some (entry_of s)
               /\ invalid_at e stocks i = None)
              \/ (valid_at e stocks i = None
                  /\ invalid_at e stocks i = Some (entry_of s))
          | None => valid_at e stocks i = None /\ invalid_at e stocks i = None
          end) as Hi.
  { unfold valid_at, invalid_at. destruct (stocks !! i) as [s|]; [| done].
    destruct ((process_stock e i s).2); [by left | by right]. }
  destruct (stocks !! i) as [s|].
  - destruct Hi as [[-> ->]|[-> ->]]; cbn [from_option app fmap list_fmap].
    + by constructor.
    + rewrite <- Permutation_middle. by constructor.
  - destruct Hi as [-> ->]. exact IH.
Qed.

Lemma omap_lookup_seq {A : Type} (pre l : list A) :
  omap (fun i => (pre ++ l) !! i) (seq (length pre) (length l)) = l.
Proof.
  revert pre. induction l as [|x l IH]; intros pre; [done |].
  cbn [length seq]. rewrite omap_one.
  rewrite list_lookup_middle by done. cbn [from_option app]. f_equal.
  specialize (IH (pre ++ [x])).
  rewrite <- app_assoc, length_app in IH. cbn [length app] in IH.
  by replace (length pre + 1) with (S (length pre)) in IH by lia.
Qed.

(** The loop of harvest files every stock that it harvests under exactly
    one of [valid] and [invalid], in the order of harvest, and each
    counter is the length of its list. *)
Theorem harvest_tallies (e : env) (stocks : list stock) (futures : list nat)
    (w : world) :
  let t := (harvest e stocks futures (empty_tally, w)).1 in
  let hs := harvested_of e futures in
  valid t = omap (valid_at e stocks) hs
  /\ invalid t = omap (invalid_at e stocks) hs
  /\ valid_count t = length (valid t)
  /\ invalid_count t = length (invalid t)
  /\ Permutation (valid t ++ invalid t)
       (entry_of <$> omap (fun i => stocks !! i) hs).
Proof.
  pose proof (harvest_from e stocks futures empty_tally w) as H.
  cbv zeta in H |- *.
  destruct H as (Hv & Hi & Hvc & Hic & _).
  cbn [empty_tally valid invalid valid_count invalid_count harvested app
       length] in Hv, Hi, Hvc, Hic.
  assert (match interrupt_at e with
          | Some j => take (j - 0) futures
          | None => futures
          end = harvested_of e futures) as Hhs.
  { unfold harvested_of. destruct (interrupt_at e); by rewrite ?Nat.sub_0_r. }
  rewrite Hhs in Hv, Hi. rewrite Hv, Hi.
  repeat split; try lia; try (rewrite <- ?Hv, <- ?Hi; lia).
  apply valid_or_invalid.
Qed.

(** When the futures are those of the stocks of the list, each once, and
    the run is not interrupted, every stock of the list ends under
    exactly one of [valid] and [invalid], and the two counters add up to
    the length of the list. *)
Theorem every_stock_is_tallied (e : env) (stocks : list stock)
    (futures : list nat) (w : world) :
  Permutation futures (seq 0 (length stocks)) ->
  interrupt_at e = None ->
  let t := (harvest e stocks futures (empty_tally, w)).1 in
  Permutation (valid t ++ invalid t) (entry_of <$> stocks)
  /\ valid_count t + invalid_count t = length stocks.
Proof.
  intros Hperm Hint.
  destruct (harvest_tallies e stocks futures w)
    as (_ & _ & Hvc & Hic & Hall).
  cbv zeta in *. unfold harvested_of in Hall. rewrite Hint in Hall.
  assert (Permutation (omap (fun i => stocks !! i) futures) stocks) as Hs.
  { rewrite Hperm. pose proof (omap_lookup_seq [] stocks) as Hseq.
    cbn [app length] in Hseq. by rewrite Hseq. }
  rewrite Hs in Hall. split; [done |].
  rewrite Hvc, Hic, <- length_app.
  by rewrite Hall, length_fmap.
Qed.

Lemma every_stock_is_tallied_witness :
  let t :=
    (harvest Demo.e_three (stock_list Demo.e_three) [1; 0; 2]
       (empty_tally, Demo.w_stale)).1 in
  Permutation (valid t ++ invalid t) (entry_of <$> stock_list Demo.e_three)
  /\ valid_count t + invalid_count t = 3.
Proof.
  apply (every_stock_is_tallied Demo.e_three (stock_list Demo.e_three)
           [1; 0; 2] Demo.w_stale); [| reflexivity].
  apply perm_swap.
Defined.

(** *** The messages of a notification and the pauses between them *)

Lemma now_formatted_sleeps (e : env) (w : world) :
  sleeps (now_formatted e w).2 = sleeps w.
Proof.
  unfold now_formatted. destruct (ist_now e) as [t|ex]; cbn [bind]; [| done].
  by case_decide.
Qed.

Lemma send_one_sleeps (e : env) (E : list embed) (n : nat) (w : world)
    (i : nat) :
  sleeps (send_one e E n w i) =
    sleeps w
    ++ match embed_chunk E i with
       | [] => []
       | _ :: _ => if (1 <? n) && (i <? n - 1) then [1] else []
       end.
Proof.
  unfold send_one. destruct (embed_chunk E i) as [|em c].
  - by rewrite app_nil_r.
  - destruct (http_post e i) as [|ex [t|]|ex];
      destruct ((1 <? n) && (i <? n - 1));
      cbn [sleeps time_sleep logging post]; by rewrite ?app_nil_r.
Qed.

(** What a loop over the messages posts and how it pauses does not
    depend on the answers to the posts. *)
Lemma send_loop_same (e e' : env) (E : list embed) (n : nat) (l : list nat)
    (w w' : world) :
  posts w = posts w' -> sleeps w = sleeps w' ->
  posts (foldl (send_one e E n) w l) = posts (foldl (send_one e' E n) w' l)
  /\ sleeps (foldl (send_one e E n) w l)
     = sleeps (foldl (send_one e' E n) w' l).
Proof.
  revert w w'. induction l as [|i l IH]; intros w w' Hp Hs; [done |].
  cbn [foldl]. apply IH.
  - by rewrite !send_one_posts, Hp.
  - by rewrite !send_one_sleeps, Hs.
Qed.

(** The messages up to the last hold ten embeds each. *)
Lemma chunk_nonempty (E : list embed) (n i : nat) :
  E <> [] -> n = (length E + max_embeds_per_message - 1)
                 / max_embeds_per_message ->
  i < n -> embed_chunk E i <> [].
Proof.
  intros HE Hn Hi. unfold embed_chunk, max_embeds_per_message in *.
  assert (i * 10 < length E) as Hlt.
  { pose proof (Nat.div_mod_eq (length E + 10 - 1) 10).
    pose proof (Nat.mod_upper_bound (length E + 10 - 1) 10). lia. }
  intros Hnil. apply (f_equal length) in Hnil.
  rewrite length_take, length_drop in Hnil. cbn [length] in Hnil. lia.
Qed.

Lemma send_loop_exact (e : env) (E : list embed) (n k a : nat) (w : world) :
  E <> [] -> n = (length E + max_embeds_per_message - 1)
                 / max_embeds_per_message ->
  a + k <= n ->
  posts (foldl (send_one e E n) w (seq a k)) =
    posts w
    ++ ((fun i => {| username := "Stocklist Validator";
                     embeds := embed_chunk E i |}) <$> seq a k)
  /\ sleeps (foldl (send_one e E n) w (seq a k)) =
       sleeps w ++ replicate (Nat.min (a + k) (n - 1) - Nat.min a (n - 1)) 1.
Proof.
  intros HE Hn. revert a w. induction k as [|k IH]; intros a w Hak.
  - cbn [seq foldl fmap list_fmap]. rewrite Nat.add_0_r, Nat.sub_diag.
    by rewrite !app_nil_r.
  - cbn [seq foldl]. destruct (IH (S a) (send_one e E n w a)) as [-> ->];
      [lia |].
    rewrite send_one_posts, send_one_sleeps.
    pose proof (chunk_nonempty E n a HE Hn ltac:(lia)) as Hc.
    destruct (embed_chunk E a) as [|em c] eqn:Hchunk; [done |].
    rewrite <- !app_assoc. split.
    + by rewrite fmap_cons, Hchunk.
    + f_equal.
      destruct (Nat.ltb_spec 1 n) as [H1|H1];
        destruct (Nat.ltb_spec a (n - 1)) as [H2|H2]; cbn [andb].
      * replace (Nat.min (a + S k) (n - 1) - Nat.min a (n - 1))
          with (S (Nat.min (S a + k) (n - 1) - Nat.min (S a) (n - 1))) by lia.
        done.
      * replace (Nat.min (a + S k) (n - 1) - Nat.min a (n - 1)) with 0 by lia.
        replace (Nat.min (S a + k) (n - 1) - Nat.min (S a) (n - 1)) with 0
          by lia.
        done.
      * lia.
      * replace (Nat.min (a + S k) (n - 1) - Nat.min a (n - 1)) with 0 by lia.
        replace (Nat.min (S a + k) (n - 1) - Nat.min (S a) (n - 1)) with 0
          by lia.
        done.
Qed.

(** The notification, when the webhook is configured: the embeds go out
    ten to a message, in order, under the name of the validator, and the
    sender pauses one second after every message but the last. *)
Lemma send_exact (e : env) (valid_stocks invalid_stocks : list entry)
    (total_checked : nat) (d : duration) (url : option string) (w : world) :
  configured url = true ->
  exists footer_text,
    let E := embeds_of valid_stocks invalid_stocks total_checked footer_text in
    let n := (length E + max_embeds_per_message - 1) / max_embeds_per_message in
    let w' := send_stocklist_to_discord e valid_stocks invalid_stocks
                total_checked d url w in
    posts w' =
      posts w
      ++ ((fun i => {| username := "Stocklist Validator";
                       embeds := embed_chunk E i |}) <$> seq 0 n)
    /\ sleeps w' = sleeps w ++ replicate (n - 1) 1.
Proof.
  intros Hurl. unfold send_stocklist_to_discord.
  destruct url as [[|c u]|]; [done | | done].
  pose proof (now_formatted_posts e w) as Hposts.
  pose proof (now_formatted_sleeps e w) as Hsleeps.
  destruct (now_formatted e w) as [stamp w1]. cbn [snd] in Hposts, Hsleeps.
  set (footer_text :=
         "Took "
         +:+ (if over_a_minute d
              then pretty (whole_minutes d) +:+ "m "
                   +:+ pretty (whole_seconds d) +:+ "s"
              else two_decimals d +:+ " seconds") +:+ nl +:+ stamp).
  exists footer_text. cbv zeta.
  destruct (embeds_of_parts valid_stocks invalid_stocks total_checked
              footer_text) as (parts & groups & HE & _).
  rewrite HE. rewrite <- HE.
  set (E := embeds_of valid_stocks invalid_stocks total_checked footer_text).
  assert (E <> []) as HEne by (subst E; by rewrite HE).
  set (n := (length E + max_embeds_per_message - 1) / max_embeds_per_message).
  match goal with
  | |- context [foldl (send_one e E n) ?w0 (seq 0 n)] =>
      destruct (send_loop_exact e E n n 0 w0 HEne eq_refl ltac:(lia))
        as [Hp Hs];
      assert (posts w0 = posts w) as Hw0
        by (by destruct invalid_stocks; simpl; rewrite Hposts);
      assert (sleeps w0 = sleeps w) as Hw0'
        by (by destruct invalid_stocks; simpl; rewrite Hsleeps)
  end.
  rewrite Hp, Hs, Hw0, Hw0'. split; [done |].
  do 2 f_equal. lia.
Qed.

(** With a webhook, the embeds of the notification go out ten to a
    message, in order, under the name of the validator, and the sender
    pauses one second after every message but the last.  Without a
    webhook nothing is posted and there is no pause. *)
Theorem messages_and_pauses (e : env) (valid_stocks invalid_stocks : list entry)
    (total_checked : nat) (d : duration) (url : option string) (w : world) :
  exists footer_text,
    let E :=
      if configured url
      then embeds_of valid_stocks invalid_stocks total_checked footer_text
      else [] in
    let n := (length E + max_embeds_per_message - 1) / max_embeds_per_message in
    let w' := send_stocklist_to_discord e valid_stocks invalid_stocks
                total_checked d url w in
    posts w' =
      posts w
      ++ ((fun i => {| username := "Stocklist Validator";
                       embeds := embed_chunk E i |}) <$> seq 0 n)
    /\ sleeps w' = sleeps w ++ replicate (n - 1) 1.
Proof.
  destruct (configured url) eqn:Hurl.
  - destruct (send_exact e valid_stocks invalid_stocks total_checked d url w
                Hurl) as (footer_text & H).
    by exists footer_text.
  - exists "". cbv zeta. cbn [length seq fmap list_fmap replicate].
    change ((0 + max_embeds_per_message - 1) / max_embeds_per_message) with 0.
    cbn [seq fmap list_fmap replicate Nat.sub]. rewrite !app_nil_r.
    unfold send_stocklist_to_discord.
    by destruct url as [[|c u]|].
Qed.

(** What the notification posts, how it pauses and what it leaves on disk
    do not depend on how the webhook answers: a message that is refused,
    or a post that raises, stops none of the messages after it. *)
Theorem refused_messages_stop_nothing (hp : nat -> post_outcome) (e : env)
    (valid_stocks invalid_stocks : list entry) (total_checked : nat)
    (d : duration) (url : option string) (w : world) :
  let w1 := send_stocklist_to_discord e valid_stocks invalid_stocks
              total_checked d url w in
  let w2 := send_stocklist_to_discord (with_http_post hp e) valid_stocks
              invalid_stocks total_checked d url w in
  posts w2 = posts w1 /\ sleeps w2 = sleeps w1 /\ fs w2 = fs w1.
Proof.
  cbv zeta. rewrite !send_fs. split; [| split; [| done]];
    unfold send_stocklist_to_discord;
    (destruct url as [[|c u]|]; [done | | done]);
    change (now_formatted (with_http_post hp e) w) with (now_formatted e w);
    destruct (now_formatted e w) as [stamp w1];
    (destruct (embeds_of _ _ _ _) as [|em E]; [done |]);
    by apply send_loop_same.
Qed.

(** *** The titles of the parts *)

Lemma chunk_loop_numbers (total parts : nat) (l : list entry) (i : nat)
    (embeds0 : list embed) (cur : string) (part : nat) :
  exists new cur',
    chunk_loop total parts i l (embeds0, cur, part)
      = (embeds0 ++ new, cur', part + length new)
    /\ forall k em, new !! k = Some em ->
         em = invalid_embed total parts (part + k) (description em).
Proof.
  revert i embeds0 cur part.
  induction l as [|s l IH]; intros i embeds0 cur part.
  - exists [], cur. cbn [chunk_loop length]. rewrite app_nil_r, Nat.add_0_r.
    split; [done |]. by intros k em.
  - cbn [chunk_loop].
    destruct ((MAX_CHARS_PER_DESC
               <? String.length cur + String.length (invalid_line i s))
              && negb (String.eqb cur "")
              || (MAX_LINES_PER_DESC <=? str_count "010" cur)).
    + destruct (IH (S i) (embeds0 ++ [invalid_embed total parts part cur])
                  (invalid_line i s) (S part)) as (new & cur' & -> & Hnew).
      exists (invalid_embed total parts part cur :: new), cur'.
      rewrite <- app_assoc. cbn [app length].
      replace (part + S (length new)) with (S part + length new) by lia.
      split; [done |]. intros [|k] em Hk.
      * injection Hk as <-. by rewrite Nat.add_0_r.
      * replace (part + S k) with (S part + k) by lia. by apply Hnew.
    + destruct (IH (S i) embeds0 (cur +:+ invalid_line i s) part)
        as (new & cur' & -> & Hnew).
      by exists new, cur'.
Qed.

(** The parts of the list of invalid stocks are numbered from one, each
    under the title of its number, red, without fields or footer; the
    number of parts that the titles announce is computed from the number
    of lines alone, and there are at least as many parts. *)
Theorem parts_are_numbered (valid_stocks invalid_stocks : list entry)
    (total_checked : nat) (footer_text : string) :
  let total := length invalid_stocks in
  let total_parts := (total + MAX_LINES_PER_DESC - 1) / MAX_LINES_PER_DESC in
  exists parts,
    embeds_of valid_stocks invalid_stocks total_checked footer_text
      = summary_embed valid_stocks invalid_stocks total_checked footer_text
        :: parts
    /\ (forall k em, parts !! k = Some em ->
          em = invalid_embed total total_parts (k + 1) (description em))
    /\ total_parts <= length parts.
Proof.
  cbv zeta.
  destruct (embeds_of_parts valid_stocks invalid_stocks total_checked
              footer_text)
    as (parts & groups & HE & Hd & Hcat & Hg & _).
  exists parts. split; [done |]. split.
  - revert HE. unfold embeds_of.
    destruct invalid_stocks as [|s0 l0].
    { intros [= <-]. by intros k em. }
    cbv beta iota. generalize (s0 :: l0). clear s0 l0 Hcat.
    intros invalid_stocks. unfold add_invalid_list.
    set (summary :=
           summary_embed valid_stocks invalid_stocks total_checked footer_text).
    set (total := length invalid_stocks).
    set (nparts := (total + MAX_LINES_PER_DESC - 1) / MAX_LINES_PER_DESC).
    destruct (chunk_loop_numbers total nparts invalid_stocks 0 [summary] "" 1)
      as (new & cur' & -> & Hnew).
    destruct (String.eqb cur' "").
    + cbn [app]. intros [= <-] k em Hk.
      rewrite Nat.add_comm. by apply Hnew.
    + cbn [app]. intros [= <-] k em Hk.
      apply lookup_app_Some in Hk as [Hk|[Hge Hk]].
      * rewrite Nat.add_comm. by apply Hnew.
      * apply list_lookup_singleton_Some in Hk as [Hk <-].
        cbn [description]. do 2 f_equal. lia.
  - apply (f_equal length) in Hd, Hcat. rewrite !length_fmap in Hd.
    rewrite Hd.
    assert (length (lines_from 0 invalid_stocks) = length invalid_stocks)
      as Hlines.
    { clear. generalize 0.
      induction invalid_stocks as [|s l IH]; intros i; [done |].
      cbn [lines_from length]. by rewrite IH. }
    rewrite Hlines in Hcat.
    assert (length (concat groups) <= 45 * length groups) as Hle.
    { clear -Hg. induction Hg as [|g gs [_ Hg] _ IH]; [done |].
      cbn [concat length]. rewrite length_app. lia. }
    unfold MAX_LINES_PER_DESC.
    pose proof (Nat.div_mod_eq (length invalid_stocks + 45 - 1) 45).
    pose proof (Nat.mod_upper_bound (length invalid_stocks + 45 - 1) 45).
    lia.
Qed.

(** *** The run as a whole *)

Lemma quiet_logging (l : level) (msg : string) : quiet (logging l msg).
Proof. intros w. repeat split. by exists [(l, msg)]. Qed.

Lemma quiet_compose (f g : world -> world) :
  quiet f -> quiet g -> quiet (fun w => g (f w)).
Proof.
  intros Hf Hg w. destruct (Hf w) as (Hp & Hs & l1 & Hl).
  destruct (Hg (f w)) as (Hp' & Hs' & l2 & Hl').
  rewrite Hp', Hs', Hl', Hp, Hs, Hl. repeat split.
  exists (l1 ++ l2). by rewrite app_assoc.
Qed.

Lemma quiet_id : quiet (fun w => w).
Proof. intros w. repeat split. exists []. by rewrite app_nil_r. Qed.

Lemma quiet_foldl {A : Type} (f : world -> A -> world) (l : list A) :
  (forall x, quiet (fun w => f w x)) -> quiet (fun w => foldl f w l).
Proof.
  intros Hf. induction l as [|x l IH]; [apply quiet_id |].
  cbn [foldl]. apply (quiet_compose (fun w => f w x) (fun w => foldl f w l));
    [apply Hf | apply IH].
Qed.

Lemma quiet_log_summary (e : env) (stocks : list stock) (t : tally) :
  quiet (log_summary e stocks t).
Proof.
  intros w. unfold log_summary. cbv zeta.
  destruct (invalid t) as [|x l].
  - cbn [posts sleeps log logging]. repeat split.
    rewrite <- !app_assoc. by eexists.
  - match goal with
    | |- context [foldl ?f ?w0 ?items] =>
        destruct (quiet_foldl f items (fun item => quiet_logging _ _) w0)
          as (Hp & Hs & l1 & Hl)
    end.
    cbn [posts sleeps log logging] in *. rewrite Hp, Hs, Hl.
    repeat split. rewrite <- !app_assoc. by eexists.
Qed.

Lemma quiet_save_valid_list (e : env) (valid_results : list entry) :
  quiet (save_valid_list e valid_results).
Proof.
  intros w. unfold save_valid_list. destruct valid_results as [|s l].
  - cbv zeta. case_decide.
    + destruct (remove_error e _); cbn [posts sleeps log logging set_fs];
        repeat split; rewrite <- app_assoc; by eexists.
    + cbn [posts sleeps log logging]. repeat split. by eexists.
  - destruct (open_error e _); cbn [posts sleeps log logging set_fs];
      repeat split; by eexists.
Qed.

Lemma harvest_log (e : env) (stocks : list stock) (futures : list nat)
    (t : tally) (w : world) :
  exists l, log (harvest e stocks futures (t, w)).2 = log w ++ l.
Proof.
  revert t w. induction futures as [|i rest IH]; intros t w.
  - exists []. cbn [harvest snd]. by rewrite app_nil_r.
  - cbn [harvest fst snd]. destruct (interrupted e t); [by eexists |].
    assert (exists l, log (harvest_one e stocks (t, w) i).2 = log w ++ l)
      as (l1 & H1).
    { unfold harvest_one. destruct (stocks !! i) as [s|];
        [| exists []; cbn [snd]; by rewrite app_nil_r].
      cbn [process_stock]. destruct (_ : bool); by eexists. }
    destruct (harvest_one e stocks (t, w) i) as [t1 w1]. cbn [snd] in H1.
    destruct (IH t1 w1) as (l2 & H2). rewrite H2, H1. exists (l1 ++ l2).
    by rewrite app_assoc.
Qed.

Lemma send_one_log (e : env) (E : list embed) (n : nat) (w : world) (i : nat) :
  exists l, log (send_one e E n w i) = log w ++ l.
Proof.
  unfold send_one. destruct (embed_chunk E i) as [|em c];
    [exists []; by rewrite app_nil_r |].
  destruct (http_post e i) as [|ex [t|]|ex];
    destruct ((1 <? n) && (i <? n - 1));
    cbn [log time_sleep logging post]; rewrite <- ?app_assoc; by eexists.
Qed.

Lemma send_log (e : env) (valid_stocks invalid_stocks : list entry)
    (total_checked : nat) (d : duration) (url : option string) (w : world) :
  exists l,
    log (send_stocklist_to_discord e valid_stocks invalid_stocks total_checked
           d url w) = log w ++ l.
Proof.
  assert (forall E n l w0,
            exists l', log (foldl (send_one e E n) w0 l) = log w0 ++ l')
    as Hloop.
  { intros E n l. induction l as [|i l IH]; intros w0.
    - exists []. by rewrite app_nil_r.
    - cbn [foldl]. destruct (IH (send_one e E n w0 i)) as (l2 & ->).
      destruct (send_one_log e E n w0 i) as (l1 & ->).
      exists (l1 ++ l2). by rewrite app_assoc. }
  unfold send_stocklist_to_discord.
  destruct url as [[|c u]|]; [by eexists | | by eexists].
  assert (exists l, log (now_formatted e w).2 = log w ++ l) as (l0 & H0).
  { unfold now_formatted. destruct (ist_now e) as [t|ex]; cbn [bind].
    - case_decide; exists []; by rewrite app_nil_r.
    - by eexists. }
  destruct (now_formatted e w) as [stamp w1]. cbn [snd] in H0.
  destruct (embeds_of _ _ _ _) as [|em E].
  - destruct invalid_stocks; cbn [log logging]; rewrite H0, <- ?app_assoc;
      by eexists.
  - match goal with
    | |- context [foldl (send_one e ?E ?n) ?w0 ?l] =>
        destruct (Hloop E n l w0) as (l2 & ->)
    end.
    destruct invalid_stocks; cbn [log logging]; rewrite H0, <- ?app_assoc;
      by eexists.
Qed.

(** A run that has its headers and a stock list: the tally of its loop,
    and the world in which it sends the notification. *)
Lemma run_stages (e : env) (w : world) :
  api_headers e <> None -> stock_list e <> [] ->
  exists t w2,
    run_validation e w =
      send_stocklist_to_discord e (valid t) (invalid t)
        (length (stock_list e)) (loop_duration e) (stocklist_webhook_url e) w2
    /\ posts w2 = posts w /\ sleeps w2 = sleeps w
    /\ valid t = valid_entries e /\ invalid t = invalid_entries e
    /\ valid_count t = length (valid t)
    /\ invalid_count t = length (invalid t)
    /\ harvested t = length (harvested_indexes e)
    /\ (interrupted e t = true ->
        (WARNING,
         "Processed " +:+ pretty (valid_count t + invalid_count t)
         +:+ " of " +:+ pretty (length (stock_list e))
         +:+ " stocks before interruption.") ∈ log w2).
Proof.
  intros Hheaders Hstocks. unfold run_validation.
  destruct (api_headers e) as [headers|]; [| done].
  destruct (stock_list e) as [|s0 l0] eqn:Hlist; [done |].
  rewrite <- Hlist.
  set (w0 := logging INFO _ (logging INFO _ w)).
  pose proof (harvest_from e (stock_list e) (completion e) empty_tally w0)
    as Hloop.
  destruct (harvest_tallies e (stock_list e) (completion e) w0)
    as (Hv & Hi & Hvc & Hic & _).
  change {| valid := []; invalid := []; valid_count := 0;
            invalid_count := 0; harvested := 0 |} with empty_tally.
  cbv zeta in Hloop, Hv, Hi, Hvc, Hic.
  destruct (harvest e (stock_list e) (completion e) (empty_tally, w0))
    as [t w1].
  cbn [fst snd] in Hloop, Hv, Hi, Hvc, Hic.
  destruct Hloop as (_ & _ & _ & _ & Hh & _ & Hposts & Hsleeps).
  cbv beta iota zeta.
  match goal with
  | |- context [save_valid_list e (valid t) (log_summary e (stock_list e) t ?w')] =>
      set (wi := w')
  end.
  destruct (quiet_log_summary e (stock_list e) t wi) as (Hp1 & Hs1 & l1 & Hl1).
  destruct (quiet_save_valid_list e (valid t)
              (log_summary e (stock_list e) t wi)) as (Hp2 & Hs2 & l2 & Hl2).
  exists t, (save_valid_list e (valid t) (log_summary e (stock_list e) t wi)).
  split; [done |].
  assert (posts wi = posts w /\ sleeps wi = sleeps w) as [Hpi Hsi].
  { subst wi. destruct (interrupted e t); cbn [posts sleeps logging];
      by rewrite Hposts, Hsleeps. }
  split; [by rewrite Hp2, Hp1 |]. split; [by rewrite Hs2, Hs1 |].
  split; [exact Hv |]. split; [exact Hi |].
  split; [exact Hvc |]. split; [exact Hic |].
  split.
  { rewrite Hh. cbn [empty_tally harvested]. unfold harvested_indexes.
    destruct (interrupt_at e); by rewrite ?Nat.sub_0_r. }
  intros Hint. rewrite Hl2, Hl1. subst wi. rewrite Hint.
  cbn [log logging]. rewrite !elem_of_app, !list_elem_of_singleton. auto.
Qed.

(** A run with its headers, a stock list and a webhook posts the summary
    of what it found, then the list of the invalid entries, ten embeds to
    a message, pausing a second between messages. *)
Theorem run_notifies (e : env) (w : world) :
  api_headers e <> None -> stock_list e <> [] ->
  configured (stocklist_webhook_url e) = true ->
  exists footer_text,
    let E :=
      embeds_of (valid_entries e) (invalid_entries e)
        (length (stock_list e)) footer_text in
    let n := (length E + max_embeds_per_message - 1) / max_embeds_per_message in
    posts (run_validation e w) =
      posts w
      ++ ((fun i => {| username := "Stocklist Validator";
                       embeds := embed_chunk E i |}) <$> seq 0 n)
    /\ sleeps (run_validation e w) = sleeps w ++ replicate (n - 1) 1.
Proof.
  intros Hheaders Hstocks Hurl.
  destruct (run_stages e w Hheaders Hstocks)
    as (t & w2 & -> & Hp & Hs & <- & <- & _).
  destruct (send_exact e (valid t) (invalid t) (length (stock_list e))
              (loop_duration e) (stocklist_webhook_url e) w2 Hurl)
    as (footer_text & H).
  exists footer_text. cbv zeta in *. by rewrite <- Hp, <- Hs.
Qed.

Lemma run_notifies_witness :
  exists footer_text,
    posts (run_validation Demo.e_three Demo.w_stale) =
      [{| username := "Stocklist Validator";
          embeds :=
            take 10
              (embeds_of (valid_entries Demo.e_three)
                 (invalid_entries Demo.e_three) 3 footer_text) |}]
    /\ sleeps (run_validation Demo.e_three Demo.w_stale) = [].
Proof.
  destruct (run_notifies Demo.e_three Demo.w_stale) as (footer_text & Hp & Hs);
    [done | done | reflexivity |].
  exists footer_text. split; [exact Hp | exact Hs].
Defined.

(** Without headers, without a stock list or without a webhook, a run
    posts nothing and pauses nowhere. *)
Theorem no_message_unless_ready (e : env) (w : world) :
  api_headers e = None \/ stock_list e = []
  \/ configured (stocklist_webhook_url e) = false ->
  posts (run_validation e w) = posts w
  /\ sleeps (run_validation e w) = sleeps w.
Proof.
  intros Hnot.
  destruct (api_headers e) as [headers|] eqn:Hheaders;
    [| unfold run_validation; by rewrite Hheaders].
  destruct (stock_list e) as [|s0 l0] eqn:Hlist;
    [unfold run_validation; by rewrite Hheaders, Hlist |].
  destruct Hnot as [?|[?|Hurl]]; [done | done |].
  destruct (run_stages e w) as (t & w2 & -> & Hp & Hs & _);
    [by rewrite Hheaders | by rewrite Hlist |].
  unfold send_stocklist_to_discord.
  by destruct (stocklist_webhook_url e) as [[|c u]|].
Qed.

Lemma no_message_unless_ready_witness :
  posts (run_validation Demo.e_none_valid Demo.w_stale) = []
  /\ sleeps (run_validation Demo.e_none_valid Demo.w_stale) = [].
Proof.
  apply (no_message_unless_ready Demo.e_none_valid Demo.w_stale).
  right. right. reflexivity.
Defined.

Lemma omap_lookup_length {A : Type} (l : list A) (hs : list nat) :
  Forall (fun i => i < length l) hs ->
  length (omap (fun i => l !! i) hs) = length hs.
Proof.
  induction 1 as [|i hs Hi _ IH]; [done |].
  rewrite omap_one, length_app, IH.
  apply lookup_lt_is_Some_2 in Hi as [s ->]. done.
Qed.

(** A run that is interrupted after [j] of its futures were harvested
    says so in its log: it has processed [j] of the stocks of the list. *)
Theorem interrupted_run_reports_progress (e : env) (w : world) (j : nat) :
  api_headers e <> None -> stock_list e <> [] ->
  interrupt_at e = Some j -> j <= length (completion e) ->
  Forall (fun i => i < length (stock_list e)) (completion e) ->
  (WARNING,
   "Processed " +:+ pretty j +:+ " of " +:+ pretty (length (stock_list e))
   +:+ " stocks before interruption.")
    ∈ log (run_validation e w).
Proof.
  intros Hheaders Hstocks Hint Hj Hrange.
  destruct (run_stages e w Hheaders Hstocks)
    as (t & w2 & -> & _ & _ & Hv & Hi & Hvc & Hic & Hh & Hlog).
  destruct (send_log e (valid t) (invalid t) (length (stock_list e))
              (loop_duration e) (stocklist_webhook_url e) w2) as (l & ->).
  apply elem_of_app. left.
  assert (harvested_indexes e = take j (completion e)) as Hhs
    by (unfold harvested_indexes; by rewrite Hint).
  assert (valid_count t + invalid_count t = j) as <-.
  { rewrite Hvc, Hic, <- length_app, Hv, Hi.
    unfold valid_entries, invalid_entries.
    change (omap _ (harvested_indexes e))
      with (omap (valid_at e (stock_list e)) (harvested_indexes e)) at 1.
    rewrite valid_or_invalid, length_fmap, Hhs.
    assert (Forall (fun i => i < length (stock_list e)) (take j (completion e)))
      as Hin by (by apply Forall_take).
    assert (length (take j (completion e)) = j) as Hlen
      by (rewrite length_take; lia).
    by rewrite omap_lookup_length. }
  apply Hlog. unfold interrupted. rewrite Hint, Hh, Hhs.
  apply Nat.leb_le. rewrite length_take. lia.
Qed.

Lemma interrupted_run_reports_progress_witness :
  (WARNING, "Processed 2 of 3 stocks before interruption.")
    ∈ log (run_validation Demo.e_none_valid Demo.w_stale).
Proof.
  apply (interrupted_run_reports_progress Demo.e_none_valid Demo.w_stale 2);
    [done | done | reflexivity | simpl; lia |].
  apply (bool_decide_unpack _). vm_compute. exact I.
Defined.

(** *** The lines of the list of valid stocks *)

Lemma csv_double_quotes_count (s : string) :
  str_count lf (csv_double_quotes s) = str_count lf s.
Proof.
  induction s as [|c s IH]; [done |]. cbn [csv_double_quotes].
  destruct (Ascii.eqb_spec c quotechar) as [->|_]; cbn [str_count];
    rewrite IH; [| done].
  by change (Ascii.eqb quotechar lf) with false.
Qed.

Lemma csv_field_count (s : string) :
  str_count lf (csv_field s) = str_count lf s.
Proof.
  unfold csv_field. destruct (csv_has_special s); [| done].
  rewrite append_cons. cbn [str_count].
  rewrite count_append, csv_double_quotes_count.
  change (Ascii.eqb quotechar lf) with false. cbn [str_count].
  change (Ascii.eqb quotechar lf) with false. cbv iota. lia.
Qed.

Lemma csv_writerow_count (a b : string) :
  str_count lf (csv_writerow [a; b]) = str_count lf a + str_count lf b + 1.
Proof.
  unfold csv_writerow. cbn [fmap list_fmap String.concat].
  rewrite !count_append, !csv_field_count. cbn [str_count].
  change (Ascii.eqb "," lf) with false. change (Ascii.eqb cr lf) with false.
  rewrite Ascii.eqb_refl. lia.
Qed.

(** The file of valid stocks has one line for the header and one for
    each entry, when no symbol and no ISIN holds a line feed: quoting a
    field adds no line. *)
Theorem one_line_per_valid_stock (valid_results : list entry) :
  Forall (fun s => str_count lf (entry_symbol s) = 0
                   /\ str_count lf (entry_isin s) = 0) valid_results ->
  str_count lf
    (csv_writerows
       (["symbol"; "isin"]
        :: ((fun s => [entry_symbol s; entry_isin s]) <$> valid_results)))
  = S (length valid_results).
Proof.
  intros Hplain. unfold csv_writerows. rewrite fmap_cons, concat_cons.
  rewrite count_append, csv_writerow_count.
  change (str_count lf "symbol" + str_count lf "isin" + 1) with 1.
  cbn [Nat.add]. f_equal.
  induction Hplain as [|s l [Hs Hi] _ IH]; [done |].
  rewrite !fmap_cons, concat_cons, count_append, csv_writerow_count, IH, Hs, Hi.
  done.
Qed.

Lemma one_line_per_valid_stock_witness :
  str_count lf
    (csv_writerows
       [["symbol"; "isin"]; ["M&M, Ltd"; "INE101A01026"];
        ["TCS"; "INE467B01029"]])
  = 3.
Proof.
  apply (one_line_per_valid_stock
           [{| entry_symbol := "M&M, Ltd"; entry_isin := "INE101A01026";
               entry_instrument_key := "NSE_EQ|INE101A01026" |};
            {| entry_symbol := "TCS"; entry_isin := "INE467B01029";
               entry_instrument_key := "NSE_EQ|INE467B01029" |}]).
  apply (bool_decide_unpack _). vm_compute. exact I.
Defined.

End ValidatorFacts.
